(** * Kosha Python client SDK: batch submission and audit-hash validation

    A shallow embedding of [sdks/python/kosha_client.py]
    ([AuditHashValidator], [BatchProcessor]) together with the properties
    its specification states about chunking, progress reporting, failure
    isolation, throughput and audit-hash validation.

    Conventions of the embedding:
    - a Python [str] is a [string]; each character is a code point below 256;
    - a Python [int] is a [Z];
    - a Python [float] that only travels through JSON is kept by its textual
      form ([PyFloat]); the floats of [time.time()] are IEEE binary64 values
      of [SpecFloat];
    - a Python [dict] with string keys is an association list in insertion
      order, without repeated keys;
    - a raised exception is a value of [PyExc]; code that may raise returns
      in [Exc]. *)

From Stdlib Require Import ZArith List String Ascii Bool Lia Arith.
From Stdlib Require Import DecimalString Permutation Sorted SpecFloat.
Import ListNotations.

Local Open Scope list_scope.
Local Open Scope string_scope.

(* ================================================================== *)
(** ** Exceptions *)

Record PyExc : Type := mkExc {
  exc_type : string;   (* class name, e.g. [KeyError] *)
  exc_str  : string    (* what [str(e)] returns *)
}.

Definition Exc (A : Type) : Type := (A + PyExc)%type.

Definition ret {A} (a : A) : Exc A := inl a.
Definition raise {A} (ty msg : string) : Exc A := inr (mkExc ty msg).

Definition ebind {A B} (m : Exc A) (k : A -> Exc B) : Exc B :=
  match m with
  | inl a => k a
  | inr e => inr e
  end.

Notation "x <- m ;; k" := (ebind m (fun x => k))
  (at level 61, m at next level, right associativity).

Definition returns {A} (m : Exc A) : bool :=
  match m with inl _ => true | inr _ => false end.

(* ================================================================== *)
(** ** Text helpers: decimal and hexadecimal digits *)

(** [str(n)] / [repr(n)] of a Python [int]. *)
Definition str_of_Z (z : Z) : string := NilZero.string_of_int (Z.to_int z).

Definition hex_digit (n : N) : ascii :=
  match n with
  | 0%N => "0" | 1%N => "1" | 2%N => "2" | 3%N => "3"
  | 4%N => "4" | 5%N => "5" | 6%N => "6" | 7%N => "7"
  | 8%N => "8" | 9%N => "9" | 10%N => "a" | 11%N => "b"
  | 12%N => "c" | 13%N => "d" | 14%N => "e" | _ => "f"
  end%char.

(** Two lowercase hex digits of a byte value. *)
Definition hex2 (n : N) : string :=
  String (hex_digit (N.div n 16 mod 16))
         (String (hex_digit (n mod 16)) EmptyString).

Definition code (c : ascii) : N := N_of_ascii c.

(** The double quote and the backslash. *)
Definition dquote : ascii := ascii_of_N 34.
Definition bslash : ascii := ascii_of_N 92.
Definition squote : ascii := ascii_of_N 39.

Definition str1 (c : ascii) : string := String c EmptyString.
Definition str2 (c d : ascii) : string := String c (String d EmptyString).

Fixpoint smap (f : ascii -> string) (s : string) : string :=
  match s with
  | EmptyString => EmptyString
  | String c r => f c ++ smap f r
  end.

Fixpoint scontains (c : ascii) (s : string) : bool :=
  match s with
  | EmptyString => false
  | String d r => Ascii.eqb c d || scontains c r
  end.

(* ================================================================== *)
(** ** Python values *)

(** A float met in a payload: [nan], [inf], [-inf] or a finite float given
    by its shortest round-trip [repr]. *)
Inductive PyFloat : Type :=
| FNan
| FInf (negative : bool)
| FFinite (repr : string).

(** The values a transaction or a decoded response can hold.  Dicts are
    keyed by strings, as the annotation [Dict[str, Any]] and JSON objects
    have it.  [PObj] is any object outside the JSON types (a [datetime], a
    [Decimal], ...), known by what [str] and [repr] return on it. *)
#[local] Unset Elimination Schemes.
Inductive PyVal : Type :=
| PNone
| PBool (b : bool)
| PInt (z : Z)
| PFloat (f : PyFloat)
| PStr (s : string)
| PList (l : list PyVal)
| PDict (d : list (string * PyVal))
| PObj (str_ repr_ : string).
#[local] Set Elimination Schemes.

Definition Dict : Type := list (string * PyVal).

Definition keys {A} (d : list (string * A)) : list string := map fst d.

(** The invariant of a Python dict: no key occurs twice. *)
Definition wf_dict {A} (d : list (string * A)) : Prop := NoDup (keys d).

(** [k in d] *)
Fixpoint dict_contains (k : string) (d : Dict) : bool :=
  match d with
  | [] => false
  | (k', _) :: r => String.eqb k k' || dict_contains k r
  end.

Fixpoint dict_lookup (k : string) (d : Dict) : option PyVal :=
  match d with
  | [] => None
  | (k', v) :: r => if String.eqb k k' then Some v else dict_lookup k r
  end.

(** [d.get(k)], which answers [None] for a missing key. *)
Definition dict_get (k : string) (d : Dict) : PyVal :=
  match dict_lookup k d with Some v => v | None => PNone end.

(** [d.get(k, default)] *)
Definition dict_get_default (k : string) (default : PyVal) (d : Dict) : PyVal :=
  match dict_lookup k d with Some v => v | None => default end.

(** [d[k] = v]: an existing key keeps its position, a new key goes last. *)
Fixpoint dict_set (k : string) (v : PyVal) (d : Dict) : Dict :=
  match d with
  | [] => [(k, v)]
  | (k', v') :: r =>
      if String.eqb k k' then (k', v) :: r else (k', v') :: dict_set k v r
  end.

(* ================================================================== *)
(** ** [str] and [repr] of values *)

Definition float_str (f : PyFloat) : string :=
  match f with
  | FNan => "nan"
  | FInf false => "inf"
  | FInf true => "-inf"
  | FFinite r => r
  end.

(** Characters that [repr] of a string writes as an escape: the C0
    controls, DEL, the C1 controls, the no-break space and the soft hyphen. *)
Definition unprintable (n : N) : bool :=
  (n <? 32)%N || ((127 <=? n)%N && (n <=? 160)%N) || (n =? 173)%N.

Definition repr_char (quote : ascii) (c : ascii) : string :=
  if Ascii.eqb c quote then str2 bslash c
  else if Ascii.eqb c bslash then str2 bslash bslash
  else if (code c =? 9)%N then "\t"
  else if (code c =? 10)%N then "\n"
  else if (code c =? 13)%N then "\r"
  else if unprintable (code c) then "\x" ++ hex2 (code c)
  else str1 c.

(** [repr(s)]: single quotes, unless [s] has a single quote and no double
    quote. *)
Definition str_repr (s : string) : string :=
  let q := if scontains squote s && negb (scontains dquote s)
           then dquote else squote in
  String q (smap (repr_char q) s ++ str1 q).

Fixpoint py_repr (v : PyVal) : string :=
  match v with
  | PNone => "None"
  | PBool true => "True"
  | PBool false => "False"
  | PInt z => str_of_Z z
  | PFloat f => float_str f
  | PStr s => str_repr s
  | PList l => "[" ++ String.concat ", " (map py_repr l) ++ "]"
  | PDict d =>
      "{" ++ String.concat ", "
               (map (fun kv => str_repr (fst kv) ++ ": " ++ py_repr (snd kv)) d)
          ++ "}"
  | PObj _ r => r
  end.

(** [str(v)], as an f-string interpolates it. *)
Definition py_str (v : PyVal) : string :=
  match v with
  | PStr s => s
  | PObj s _ => s
  | _ => py_repr v
  end.

(** [s == v] for a string [s]: true only for an equal string. *)
Definition str_eq_val (s : string) (v : PyVal) : bool :=
  match v with
  | PStr t => String.eqb s t
  | _ => false
  end.

(* ================================================================== *)
(** ** [json.dumps(data, sort_keys=True, default=str)] *)

(** One character of a JSON string under [ensure_ascii]: the short escapes,
    then [\u00xx] for anything outside the printable ASCII range. *)
Definition json_escape_char (c : ascii) : string :=
  if Ascii.eqb c dquote then str2 bslash dquote
  else if Ascii.eqb c bslash then str2 bslash bslash
  else if (code c =? 8)%N then "\b"
  else if (code c =? 9)%N then "\t"
  else if (code c =? 10)%N then "\n"
  else if (code c =? 12)%N then "\f"
  else if (code c =? 13)%N then "\r"
  else if (code c <? 32)%N || (126 <? code c)%N then "\u00" ++ hex2 (code c)
  else str1 c.

Definition json_string (s : string) : string :=
  String dquote (smap json_escape_char s ++ str1 dquote).

Definition json_float (f : PyFloat) : string :=
  match f with
  | FNan => "NaN"
  | FInf false => "Infinity"
  | FInf true => "-Infinity"
  | FFinite r => r
  end.

(** [sorted(items)] on the items of a dict: a stable insertion sort on the
    keys, compared code point by code point. *)
Fixpoint insert_item {A} (x : string * A) (l : list (string * A))
  : list (string * A) :=
  match l with
  | [] => [x]
  | y :: r =>
      if String.leb (fst x) (fst y) then x :: l else y :: insert_item x r
  end.

Fixpoint sort_items {A} (l : list (string * A)) : list (string * A) :=
  match l with
  | [] => []
  | x :: r => insert_item x (sort_items r)
  end.

(** [x] comes no later than [y] in key order. *)
Definition key_le {A} (x y : string * A) : Prop :=
  String.leb (fst x) (fst y) = true.

Definition json_member (kv : string * string) : string :=
  json_string (fst kv) ++ ": " ++ snd kv.

(** The encoder.  The members of a dict are encoded and then put in key
    order; [json_dumps_dict] below shows that this is the source's
    "sort the items, then encode each one". *)
Fixpoint json_dumps (v : PyVal) : string :=
  match v with
  | PNone => "null"
  | PBool true => "true"
  | PBool false => "false"
  | PInt z => str_of_Z z
  | PFloat f => json_float f
  | PStr s => json_string s
  | PList l => "[" ++ String.concat ", " (map json_dumps l) ++ "]"
  | PDict d =>
      "{" ++ String.concat ", "
               (map json_member
                    (sort_items (map (fun kv => (fst kv, json_dumps (snd kv))) d)))
          ++ "}"
  | PObj s _ => json_string s   (* default=str *)
  end.

(* ================================================================== *)
(** ** [str.encode()]: UTF-8 *)

Definition utf8_char (c : ascii) : list N :=
  let n := code c in
  if (n <? 128)%N then [n]
  else [N.lor 192 (N.shiftr n 6); N.lor 128 (N.land n 63)].

Fixpoint encode (s : string) : list N :=
  match s with
  | EmptyString => []
  | String c r => utf8_char c ++ encode r
  end.

(* ================================================================== *)
(** ** [hashlib.sha256]: FIPS 180-4 on 32-bit words held in [Z] *)

Module SHA256.
Local Open Scope Z_scope.

Definition mask32 : Z := 0xffffffff.

Definition add32 (x y : Z) : Z := Z.land (x + y) mask32.

Definition rotr (n x : Z) : Z :=
  Z.lor (Z.shiftr x n) (Z.land (Z.shiftl x (32 - n)) mask32).

Definition xor3 (x y z : Z) : Z := Z.lxor (Z.lxor x y) z.

Definition Ch (x y z : Z) : Z :=
  Z.lxor (Z.land x y) (Z.land (Z.lxor x mask32) z).
Definition Maj (x y z : Z) : Z :=
  xor3 (Z.land x y) (Z.land x z) (Z.land y z).
Definition Sigma0 (x : Z) : Z := xor3 (rotr 2 x) (rotr 13 x) (rotr 22 x).
Definition Sigma1 (x : Z) : Z := xor3 (rotr 6 x) (rotr 11 x) (rotr 25 x).
Definition sigma0 (x : Z) : Z := xor3 (rotr 7 x) (rotr 18 x) (Z.shiftr x 3).
Definition sigma1 (x : Z) : Z := xor3 (rotr 17 x) (rotr 19 x) (Z.shiftr x 10).

(** The constants are not tabulated but derived as the standard defines
    them: the first 32 bits of the fractional parts of the cube roots (for
    [K]) and of the square roots (for [H0]) of the first primes. *)
Definition is_prime (n : Z) : bool :=
  (1 <? n) && forallb (fun d => negb (n mod Z.of_nat d =? 0))
                      (seq 2 (Z.to_nat n - 2)).

Definition primes : list Z :=
  filter is_prime (map Z.of_nat (seq 2 310)).

(** The integer cube root of [n < 2 ^ (3 * bits)], bit by bit. *)
Fixpoint cube_root (bits : nat) (n r : Z) : Z :=
  match bits with
  | O => r
  | S b =>
      let r' := r + 2 ^ Z.of_nat b in
      cube_root b n (if r' * r' * r' <=? n then r' else r)
  end.

Definition K : list Z :=
  Eval vm_compute in
    map (fun p => cube_root 36 (p * 2 ^ 96) 0 mod 2 ^ 32) (firstn 64 primes).

Definition H0 : list Z :=
  Eval vm_compute in
    map (fun p => Z.sqrt (p * 2 ^ 64) mod 2 ^ 32) (firstn 8 primes).

(** Big-endian bytes of a [w]-byte word. *)
Fixpoint be_bytes (w : nat) (x : Z) : list Z :=
  match w with
  | O => []
  | S w' => Z.land (Z.shiftr x (8 * Z.of_nat w')) 255 :: be_bytes w' x
  end.

Definition be_word (bs : list Z) : Z :=
  fold_left (fun acc b => Z.lor (Z.shiftl acc 8) b) bs 0.

(** Padding: a one bit, zeros up to 56 modulo 64, the bit length on 8
    bytes. *)
Definition pad (msg : list Z) : list Z :=
  let len := Z.of_nat (List.length msg) in
  let zeros := Z.to_nat ((55 - len) mod 64) in
  (msg ++ 128 :: repeat 0 zeros ++ be_bytes 8 (8 * len))%list.

Fixpoint groups (size count : nat) (l : list Z) : list (list Z) :=
  match count with
  | O => []
  | S c => firstn size l :: groups size c (skipn size l)
  end.

Definition words_of_block (blk : list Z) : list Z :=
  map be_word (groups 4 16 blk).

(** The message schedule, most recent word first. *)
Fixpoint extend (n : nat) (rw : list Z) : list Z :=
  match n with
  | O => rw
  | S n' =>
      let w := add32 (add32 (sigma1 (nth 1 rw 0)) (nth 6 rw 0))
                     (add32 (sigma0 (nth 14 rw 0)) (nth 15 rw 0)) in
      extend n' (w :: rw)
  end.

Definition schedule (blk : list Z) : list Z :=
  rev (extend 48 (rev (words_of_block blk))).

Definition round (st : list Z) (kw : Z * Z) : list Z :=
  match st with
  | [a; b; c; d; e; f; g; h] =>
      let t1 := add32 (add32 (add32 h (Sigma1 e)) (Ch e f g))
                      (add32 (fst kw) (snd kw)) in
      let t2 := add32 (Sigma0 a) (Maj a b c) in
      [add32 t1 t2; a; b; c; add32 d t1; e; f; g]
  | _ => st
  end.

Definition compress (h : list Z) (blk : list Z) : list Z :=
  map (fun p => add32 (fst p) (snd p))
      (combine h (fold_left round (combine K (schedule blk)) h)).

Definition digest (msg : list Z) : list Z :=
  let p := pad msg in
  flat_map (be_bytes 4)
           (fold_left compress (groups 64 (List.length p / 64) p) H0).

End SHA256.

(** [hashlib.sha256(bytes).hexdigest()] *)
Definition sha256_hex (bytes : list N) : string :=
  String.concat EmptyString
    (map (fun b => hex2 (Z.to_N b)) (SHA256.digest (map Z.of_N bytes))).

(* ================================================================== *)
(** ** [AuditHashValidator] *)

(** [compute_audit_hash(data)] *)
Definition compute_audit_hash (data : Dict) : string :=
  let serialized := json_dumps (PDict data) in
  sha256_hex (encode serialized).

(** [d[k]] on a dict. *)
Definition dict_getitem (k : string) (d : Dict) : Exc PyVal :=
  match dict_lookup k d with
  | Some v => ret v
  | None => raise "KeyError" (str_repr k)
  end.

(** [{**original_transaction, "exception_flag": ..., "reason_code": ...,
      "confidence": ...}] *)
Definition expected_data (result original_transaction : Dict) : Dict :=
  dict_set "confidence" (dict_get "confidence" result)
    (dict_set "reason_code" (dict_get "reason_code" result)
       (dict_set "exception_flag" (dict_get "exception_flag" result)
          original_transaction)).

(** [validate_result(result, original_transaction)] *)
Definition validate_result (result original_transaction : Dict) : Exc bool :=
  if negb (dict_contains "audit_hash" result) then ret false
  else
    let computed_hash :=
      compute_audit_hash (expected_data result original_transaction) in
    declared <- dict_getitem "audit_hash" result ;;
    ret (str_eq_val computed_hash declared).

Arguments compute_audit_hash : simpl never.
Arguments validate_result : simpl never.

(* ------------------------------------------------------------------ *)
(** *** The same function over a store of dict objects

    Python passes dicts by reference.  A [Heap] holds the dict objects by
    address; [validate_result_ref] is [validate_result] with every read and
    write of a dict made explicit, so that what the call leaves in the
    store can be stated. *)

Definition Heap : Type := list Dict.
Definition Ref : Type := nat.

Definition deref (h : Heap) (r : Ref) : Dict := nth r h [].

(** A new dict object holding a copy of [d]'s items. *)
Definition h_alloc (d : Dict) (h : Heap) : Ref * Heap :=
  (List.length h, (h ++ [d])%list).

Fixpoint h_update (r : Ref) (f : Dict -> Dict) (h : Heap) : Heap :=
  match h, r with
  | [], _ => []
  | d :: t, O => f d :: t
  | d :: t, S r' => d :: h_update r' f t
  end.

(** [heap[r][k] = v] *)
Definition h_setitem (r : Ref) (k : string) (v : PyVal) (h : Heap) : Heap :=
  h_update r (dict_set k v) h.

Definition validate_result_ref (result original_transaction : Ref) (h : Heap)
  : Exc bool * Heap :=
  if negb (dict_contains "audit_hash" (deref h result)) then (ret false, h)
  else
    let (expected, h1) := h_alloc (deref h original_transaction) h in
    let h2 := h_setitem expected "exception_flag"
                (dict_get "exception_flag" (deref h1 result)) h1 in
    let h3 := h_setitem expected "reason_code"
                (dict_get "reason_code" (deref h2 result)) h2 in
    let h4 := h_setitem expected "confidence"
                (dict_get "confidence" (deref h3 result)) h3 in
    let computed_hash := compute_audit_hash (deref h4 expected) in
    (declared <- dict_getitem "audit_hash" (deref h4 result) ;;
     ret (str_eq_val computed_hash declared), h4).

(* ================================================================== *)
(** ** The world outside: clock, HTTP transport, console *)

(** IEEE binary64. *)
Definition f_sub : spec_float -> spec_float -> spec_float := SFsub 53 1024.
Definition f_div : spec_float -> spec_float -> spec_float := SFdiv 53 1024.
Definition f_zero : spec_float := S754_zero false.
Definition f_lt : spec_float -> spec_float -> bool := SFltb.
Definition f_le : spec_float -> spec_float -> bool := SFleb.

(** [float(n)] of an [int]: the nearest binary64. *)
Definition float_of_int (n : Z) : spec_float := binary_normalize 53 1024 n 0 false.

(** Not a NaN and not below zero. *)
Definition nonneg_float (f : spec_float) : bool :=
  match f with
  | S754_nan => false
  | S754_zero _ => true
  | S754_infinity s => negb s
  | S754_finite s _ _ => negb s
  end.

Definition finite_float (f : spec_float) : bool :=
  match f with
  | S754_zero _ | S754_finite _ _ _ => true
  | _ => false
  end.

(** The largest length a Python list can have ([sys.maxsize]). *)
Definition sys_maxsize : Z := 2 ^ 63 - 1.

(** An [int] or a [float]. *)
Inductive PyNum : Type :=
| NumInt (z : Z)
| NumFloat (f : spec_float).

(** [0 <= x] *)
Definition num_nonneg (x : PyNum) : bool :=
  match x with
  | NumInt z => (0 <=? z)%Z
  | NumFloat f => f_le f_zero f
  end.

(** The body of an HTTP response: nothing, a JSON document, or text that
    is not JSON (kept by the decoder's complaint). *)
Inductive Body : Type :=
| BodyEmpty
| BodyJson (v : PyVal)
| BodyGarbage (decode_error : string).

Record Response : Type := mkResponse {
  status_code : Z;
  body : Body
}.

(** What [session.post] ends in once the adapter's retries are spent: a
    response, or the exception of the transport (connection error, timeout,
    retries exhausted). *)
Inductive PostOutcome : Type :=
| Responded (r : Response)
| TransportError (e : PyExc).

(** One reading of the wall clock. *)
Record Instant : Type := mkInstant {
  unix_time : spec_float;    (* [time.time()] *)
  utc_iso : string           (* [datetime.now(timezone.utc).isoformat()] *)
}.

Record World : Type := mkWorld {
  clock : nat -> Instant;                        (* successive readings *)
  ticks : nat;                                   (* readings taken so far *)
  server : nat -> list Dict -> PostOutcome;      (* fate of the n-th request *)
  sent : list (list Dict);                       (* payloads posted so far *)
  stdout : list string;                          (* lines printed so far *)
  progress : list (Z * Z)                        (* callback invocations *)
}.

Definition tick (w : World) : World :=
  mkWorld (clock w) (S (ticks w)) (server w) (sent w) (stdout w) (progress w).

Definition time_time (w : World) : spec_float * World :=
  (unix_time (clock w (ticks w)), tick w).

Definition utc_now_iso (w : World) : string * World :=
  (utc_iso (clock w (ticks w)), tick w).

Definition session_post (payload : list Dict) (w : World) : PostOutcome * World :=
  (server w (List.length (sent w)) payload,
   mkWorld (clock w) (ticks w) (server w) (sent w ++ [payload])%list
           (stdout w) (progress w)).

Definition print (line : string) (w : World) : World :=
  mkWorld (clock w) (ticks w) (server w) (sent w)
          (stdout w ++ [line])%list (progress w).

Definition notify (current total : Z) (w : World) : World :=
  mkWorld (clock w) (ticks w) (server w) (sent w) (stdout w)
          (progress w ++ [(current, total)])%list.

(** [response.json()] *)
Definition response_json (r : Response) : Exc PyVal :=
  match body r with
  | BodyJson v => ret v
  | BodyEmpty => raise "JSONDecodeError" "Expecting value: line 1 column 1 (char 0)"
  | BodyGarbage msg => raise "JSONDecodeError" msg
  end.

(** [bool(response.text)] *)
Definition response_has_text (r : Response) : bool :=
  match body r with
  | BodyEmpty => false
  | _ => true
  end.

Definition type_name (v : PyVal) : string :=
  match v with
  | PNone => "NoneType"
  | PBool _ => "bool"
  | PInt _ => "int"
  | PFloat _ => "float"
  | PStr _ => "str"
  | PList _ => "list"
  | PDict _ => "dict"
  | PObj _ _ => "object"
  end.

(** [v[k]] for a string key [k] on an arbitrary value. *)
Definition py_getitem (v : PyVal) (k : string) : Exc PyVal :=
  match v with
  | PDict d => dict_getitem k d
  | PList _ => raise "TypeError" "list indices must be integers or slices, not str"
  | PStr _ => raise "TypeError" "string indices must be integers, not 'str'"
  | _ => raise "TypeError" ("'" ++ type_name v ++ "' object is not subscriptable")
  end.

(** [v.get(k, default)] on an arbitrary value. *)
Definition py_get (v : PyVal) (k : string) (default : PyVal) : Exc PyVal :=
  match v with
  | PDict d => ret (dict_get_default k default d)
  | _ => raise "AttributeError"
               ("'" ++ type_name v ++ "' object has no attribute 'get'")
  end.

Fixpoint chars (s : string) : list PyVal :=
  match s with
  | EmptyString => []
  | String c r => PStr (str1 c) :: chars r
  end.

(** [iter(v)], run to the end. *)
Definition py_iter (v : PyVal) : Exc (list PyVal) :=
  match v with
  | PList l => ret l
  | PDict d => ret (map PStr (keys d))
  | PStr s => ret (chars s)
  | _ => raise "TypeError" ("'" ++ type_name v ++ "' object is not iterable")
  end.

(* ================================================================== *)
(** ** [TransactionResult], [BatchResult] and the processing summary *)

Record TransactionResult : Type := mkTransactionResult {
  transaction_id : PyVal;
  audit_hash : PyVal;
  exception_flag : PyVal;
  reason_code : PyVal;
  confidence : PyVal;
  explainability_features : PyVal;
  request_timestamp : string;
  response_timestamp : string
}.

Record BatchResult : Type := mkBatchResult {
  batch_id : Z;
  total_transactions : Z;
  successful : Z;
  failed : Z;
  results : list TransactionResult;
  duration_seconds : spec_float;
  throughput : PyNum
}.

(** An entry [{"batch_id": ..., "error": ...}] of [failed_batches]. *)
Record FailedBatch : Type := mkFailedBatch {
  fb_batch_id : Z;
  fb_error : string
}.

(** The dict [process_all] returns. *)
Record Summary : Type := mkSummary {
  s_total_transactions : Z;
  s_successful : Z;
  s_failed : Z;
  s_failed_batches : list FailedBatch;
  s_total_time : spec_float;
  s_throughput : PyNum;
  s_results : list TransactionResult
}.

Definition len {A} (l : list A) : Z := Z.of_nat (List.length l).

(* ================================================================== *)
(** ** [BatchProcessor] *)

(** A progress callback answers [None] when it returns and [Some e] when
    it raises [e]. *)
Definition Callback : Type := Z -> Z -> option PyExc.

Record BatchProcessor : Type := mkBatchProcessor {
  api_url : string;
  batch_size : Z;
  max_retries : Z;
  timeout : Z;
  progress_callback : option Callback
}.

(** [s.rstrip("/")] *)
Fixpoint rstrip_slash (s : string) : string :=
  match s with
  | EmptyString => EmptyString
  | String c r =>
      match rstrip_slash r with
      | EmptyString => if Ascii.eqb c "/" then EmptyString else str1 c
      | r' => String c r'
      end
  end.

(** [BatchProcessor.__init__] *)
Definition BatchProcessor_init (api_url : string) (batch_size max_retries timeout : Z)
    (progress_callback : option Callback) : BatchProcessor :=
  mkBatchProcessor (rstrip_slash api_url)
                   (Z.min batch_size 5000)   (* Enforce max batch size *)
                   max_retries timeout progress_callback.

(** [len(transactions) / duration if duration > 0 else 0] *)
Definition throughput_of (count : Z) (elapsed : spec_float) : PyNum :=
  if f_lt f_zero elapsed then NumFloat (f_div (float_of_int count) elapsed)
  else NumInt 0.

(** The [TransactionResult(...)] built for position [i] of a batch. *)
Definition make_result (batch_id : Z) (req_ts resp_ts : string)
    (i : Z) (txn : Dict) (result : PyVal) : Exc TransactionResult :=
  let tid :=
    dict_get_default "transaction_id"
      (PStr ("txn_" ++ str_of_Z batch_id ++ "_" ++ str_of_Z i)) txn in
  ah <- py_getitem result "audit_hash" ;;
  ef <- py_getitem result "exception_flag" ;;
  rc <- py_getitem result "reason_code" ;;
  cf <- py_getitem result "confidence" ;;
  xf <- py_get result "explainability_features" (PDict []) ;;
  ret (mkTransactionResult tid ah ef rc cf xf req_ts resp_ts).

(** [for i, (txn, result) in enumerate(zip(transactions, results_json))] *)
Fixpoint build_results (batch_id : Z) (req_ts resp_ts : string) (i : Z)
    (pairs : list (Dict * PyVal)) : Exc (list TransactionResult) :=
  match pairs with
  | [] => ret []
  | (txn, result) :: rest =>
      r <- make_result batch_id req_ts resp_ts i txn result ;;
      rs <- build_results batch_id req_ts resp_ts (i + 1) rest ;;
      ret (r :: rs)
  end.

(** The message of the [RequestException] raised on a non-200 status. *)
Definition failure_message (batch_id status : Z) (detail : string) : string :=
  "Batch " ++ str_of_Z batch_id ++ " failed with status " ++ str_of_Z status
    ++ ": " ++ detail.

(** What [process_batch] does with the response once it has one. *)
Definition handle_response (transactions : list Dict) (batch_id : Z)
    (req_ts resp_ts : string) (duration : spec_float) (response : Response)
  : Exc BatchResult :=
  if negb (status_code response =? 200)%Z then
    error_detail <-
      (if response_has_text response
       then (j <- response_json response ;;
             py_get j "detail" (PStr "Unknown error"))
       else ret (PStr "No response")) ;;
    raise "RequestException"
          (failure_message batch_id (status_code response) (py_str error_detail))
  else
    results_json <- response_json response ;;
    items <- py_iter results_json ;;
    results <- build_results batch_id req_ts resp_ts 0
                 (combine transactions items) ;;
    ret (mkBatchResult batch_id (len transactions) (len results) 0 results
           duration (throughput_of (len transactions) duration)).

(** [process_batch(transactions, batch_id)] *)
Definition process_batch (transactions : list Dict) (batch_id : Z) (w : World)
  : Exc BatchResult * World :=
  let (start_time, w) := time_time w in
  let (request_timestamp, w) := utc_now_iso w in
  let (outcome, w) := session_post transactions w in
  match outcome with
  | TransportError e => (inr e, w)
  | Responded response =>
      let (response_timestamp, w) := utc_now_iso w in
      let (end_time, w) := time_time w in
      let duration := f_sub end_time start_time in
      (handle_response transactions batch_id request_timestamp
         response_timestamp duration response, w)
  end.

(** [range(0, stop, step)] for [stop >= 0]. *)
Definition py_range (stop step : Z) : Exc (list Z) :=
  if (step =? 0)%Z then raise "ValueError" "range() arg 3 must not be zero"
  else if (step <? 0)%Z then ret []
  else ret (map (fun k => Z.of_nat k * step)%Z
                (seq 0 (Z.to_nat ((stop + step - 1) / step)))).

(** [l[i:j]] for [0 <= i] and [0 <= j]. *)
Definition py_slice {A} (l : list A) (i j : Z) : list A :=
  firstn (Z.to_nat j - Z.to_nat i) (skipn (Z.to_nat i) l).

(** The local variables [process_all] updates across batches. *)
Record Acc : Type := mkAcc {
  all_results : list TransactionResult;
  failed_batches : list FailedBatch
}.

(** The [except Exception as e] clause. *)
Definition on_exception (batch_id : Z) (e : PyExc) (acc : Acc) (w : World)
  : Acc * World :=
  (mkAcc (all_results acc)
         (failed_batches acc ++ [mkFailedBatch batch_id (exc_str e)])%list,
   print ("Error processing batch " ++ str_of_Z batch_id ++ ": " ++ exc_str e) w).

(** The inner loop of the optional validation: the ids of the results whose
    hash does not validate. *)
Fixpoint invalid_hashes (batch : list Dict) (j : nat)
    (rs : list TransactionResult) : Exc (list PyVal) :=
  match rs with
  | [] => ret []
  | result :: rest =>
      original <-
        match nth_error batch j with
        | Some d => ret d
        | None => raise "IndexError" "list index out of range"
        end ;;
      let result_dict :=
        [("audit_hash", audit_hash result);
         ("exception_flag", exception_flag result);
         ("reason_code", reason_code result);
         ("confidence", confidence result)] in
      ok <- validate_result result_dict original ;;
      more <- invalid_hashes batch (S j) rest ;;
      ret (if ok then more else transaction_id result :: more)
  end.

Definition validate_batch (batch_id : Z) (batch : list Dict)
    (rs : list TransactionResult) (w : World) : Exc unit * World :=
  match invalid_hashes batch 0 rs with
  | inr e => (inr e, w)
  | inl [] => (ret tt, w)
  | inl bad =>
      (ret tt,
       print ("Warning: Batch " ++ str_of_Z batch_id ++ " has "
                ++ str_of_Z (len bad) ++ " invalid audit hashes") w)
  end.

(** One turn of the [for i in range(0, total, self.batch_size)] loop. *)
Definition process_all_step (self : BatchProcessor) (transactions : list Dict)
    (validate_audit_hash : bool) (total : Z) (st : Acc * World) (i : Z)
  : Acc * World :=
  let (acc, w) := st in
  let batch_id := (i / batch_size self + 1)%Z in
  let batch := py_slice transactions i (i + batch_size self) in
  match process_batch batch batch_id w with
  | (inr e, w) => on_exception batch_id e acc w
  | (inl batch_result, w) =>
      let acc := mkAcc (all_results acc ++ results batch_result)%list
                       (failed_batches acc) in
      match (if validate_audit_hash
             then validate_batch batch_id batch (results batch_result) w
             else (ret tt, w)) with
      | (inr e, w) => on_exception batch_id e acc w
      | (inl _, w) =>
          match progress_callback self with
          | None => (acc, w)
          | Some callback =>
              let w := notify (i + len batch) total w in
              match callback (i + len batch)%Z total with
              | Some e => on_exception batch_id e acc w
              | None => (acc, w)
              end
          end
      end
  end.

(** [process_all(transactions, validate_audit_hash)] *)
Definition process_all (self : BatchProcessor) (transactions : list Dict)
    (validate_audit_hash : bool) (w : World) : Exc Summary * World :=
  let total := len transactions in
  let (start_time, w) := time_time w in
  match py_range total (batch_size self) with
  | inr e => (inr e, w)
  | inl indices =>
      let (acc, w) :=
        fold_left (process_all_step self transactions validate_audit_hash total)
                  indices (mkAcc [] [], w) in
      let (end_time, w) := time_time w in
      let total_time := f_sub end_time start_time in
      (ret (mkSummary total
                      (len (all_results acc))
                      (total - len (all_results acc))
                      (failed_batches acc)
                      total_time
                      (throughput_of total total_time)
                      (all_results acc)), w)
  end.


(* ================================================================== *)
(** ** Vocabulary of the statements *)

(** A response item that [process_batch] can turn into a
    [TransactionResult]: an object with the four mandatory keys. *)
Definition result_ok (r : PyVal) : bool :=
  match r with
  | PDict d =>
      dict_contains "audit_hash" d && dict_contains "exception_flag" d
      && dict_contains "reason_code" d && dict_contains "confidence" d
  | _ => false
  end.

(** A body that answers [batch]: a JSON document that can be iterated and
    whose items, as far as the batch reaches, are [result_ok]. *)
Definition body_ok (batch : list Dict) (b : Body) : bool :=
  match b with
  | BodyJson v =>
      match py_iter v with
      | inl items => forallb result_ok (firstn (List.length batch) items)
      | inr _ => false
      end
  | _ => false
  end.

(** The request for [batch] ended in a usable answer. *)
Definition accepted (batch : list Dict) (out : PostOutcome) : bool :=
  match out with
  | Responded r => (status_code r =? 200)%Z && body_ok batch (body r)
  | TransportError _ => false
  end.

(** Two worlds that differ at most in what was printed. *)
Definition same_but_stdout (w w' : World) : Prop :=
  clock w' = clock w /\ ticks w' = ticks w /\ server w' = server w
  /\ sent w' = sent w /\ progress w' = progress w.

(** The [k]-th window of [process_all] (counting from 0), its batch id and
    the arguments its progress call receives. *)
Definition chunk (self : BatchProcessor) (transactions : list Dict) (k : nat)
  : list Dict :=
  py_slice transactions (Z.of_nat k * batch_size self)%Z
           (Z.of_nat k * batch_size self + batch_size self)%Z.

Definition id_of (k : nat) : Z := (Z.of_nat k + 1)%Z.

(** The loop index [i] of window [k], and the number of windows
    [range(0, total, batch_size)] yields for a positive batch size. *)
Definition index_of (self : BatchProcessor) (k : nat) : Z :=
  (Z.of_nat k * batch_size self)%Z.

Definition window_count (self : BatchProcessor) (transactions : list Dict) : nat :=
  Z.to_nat ((len transactions + batch_size self - 1) / batch_size self).

Definition progress_call (self : BatchProcessor) (transactions : list Dict)
    (k : nat) : Z * Z :=
  ((Z.of_nat k * batch_size self + len (chunk self transactions k))%Z,
   len transactions).

(** During a run started in [w], the [k]-th window is the
    [List.length (sent w) + k]-th request the server sees. *)
Definition batch_accepted (self : BatchProcessor) (transactions : list Dict)
    (w : World) (k : nat) : bool :=
  accepted (chunk self transactions k)
           (server w (List.length (sent w) + k) (chunk self transactions k)).

Definition callback_raises (self : BatchProcessor) (call : Z * Z) : bool :=
  match progress_callback self with
  | Some callback =>
      match callback (fst call) (snd call) with
      | Some _ => true
      | None => false
      end
  | None => false
  end.

Definition has_callback (self : BatchProcessor) : bool :=
  match progress_callback self with Some _ => true | None => false end.

(** The window ends in the [except] clause. *)
Definition batch_fails (self : BatchProcessor) (transactions : list Dict)
    (w : World) (k : nat) : bool :=
  negb (batch_accepted self transactions w k)
  || callback_raises self (progress_call self transactions k).

(* ================================================================== *)
(** ** Statements of the specification that the code does not meet *)





(* ================================================================== *)
(** ** Sample data used to exercise the statements *)

Module Sample.

Definition txn (n : Z) : Dict :=
  [("transaction_id", PStr ("TXN_" ++ str_of_Z n));
   ("ledger_a_amount", PFloat (FFinite "1000.0"));
   ("sequence_id", PInt n);
   ("currency", PStr "USD")].

(** A result object as the service sends it, with a given hash. *)
Definition result_json (hash : string) : PyVal :=
  PDict [("audit_hash", PStr hash);
         ("exception_flag", PBool false);
         ("reason_code", PStr "MATCH");
         ("confidence", PFloat (FFinite "0.97"))].

Definition verdict : Dict :=
  [("exception_flag", PBool true);
   ("reason_code", PStr "AMOUNT_MISMATCH");
   ("confidence", PFloat (FFinite "0.82"))].

(** A result whose declared hash is the one the validator recomputes. *)
Definition signed_result (original : Dict) : Dict :=
  ("audit_hash", PStr (compute_audit_hash (expected_data verdict original)))
    :: verdict.

Definition ab : Dict := [("a", PInt 1); ("b", PInt 2)].
Definition ba : Dict := [("b", PInt 2); ("a", PInt 1)].

End Sample.

Module SampleHeap.

(** A store holding a result and the transaction it answers. *)
Definition heap : Heap := [Sample.signed_result (Sample.txn 1); Sample.txn 1].
Definition result : Ref := 0%nat.
Definition original : Ref := 1%nat.

End SampleHeap.

Module SampleRun.

Definition clock_at (n : nat) : Instant :=
  mkInstant (float_of_int (Z.of_nat n))
            ("2024-01-01T00:00:" ++ str_of_Z (Z.of_nat n) ++ "+00:00").

(** A server that answers every request with one result per transaction. *)
Definition echo_server (n : nat) (payload : list Dict) : PostOutcome :=
  Responded (mkResponse 200
               (BodyJson (PList (map (fun _ => Sample.result_json "00") payload)))).

(** A server out of reach. *)
Definition dead_server (n : nat) (payload : list Dict) : PostOutcome :=
  TransportError (mkExc "ConnectionError" "Connection refused").

(** A server that loses its [bad]-th request. *)
Definition flaky_server (bad : nat) (n : nat) (payload : list Dict) : PostOutcome :=
  if Nat.eqb n bad then dead_server n payload else echo_server n payload.

Definition world (srv : nat -> list Dict -> PostOutcome) : World :=
  mkWorld clock_at 0 srv [] [] [].

Definition quiet : Callback := fun _ _ => None.




(** A server that answers 200 with a single result, whatever it is sent. *)
Definition terse_server (n : nat) (payload : list Dict) : PostOutcome :=
  Responded (mkResponse 200 (BodyJson (PList [Sample.result_json "00"]))).

Definition five : list Dict := map Sample.txn [1; 2; 3; 4; 5]%Z.

Definition processor (size : Z) : BatchProcessor :=
  BatchProcessor_init "http://127.0.0.1:8000/" size 3 60 (Some quiet).

End SampleRun.

Module SampleBig.

(** 2500 transactions, and a service that loses the second request. *)
Definition transactions : list Dict :=
  map (fun k => Sample.txn (Z.of_nat k)) (seq 1 2500).

Definition answers (payload : list Dict) : list PyVal :=
  map (fun _ => Sample.result_json "00") payload.

Definition world : World := SampleRun.world (SampleRun.flaky_server 1).

Definition lost : PyExc := mkExc "ConnectionError" "Connection refused".

End SampleBig.

(* ================================================================== *)
(** ** [KoshaClient] *)

Record KoshaClient : Type := mkKoshaClient {
  kc_api_url : string;
  kc_batch_size : Z;
  kc_max_retries : Z;
  kc_timeout : Z
}.

(** [KoshaClient.__init__]: the batch size is stored as given. *)
Definition KoshaClient_init (api_url : string) (batch_size max_retries timeout : Z)
  : KoshaClient :=
  mkKoshaClient (rstrip_slash api_url) batch_size max_retries timeout.

(** [KoshaClient.reconcile_batch] *)
Definition reconcile_batch (self : KoshaClient) (transactions : list Dict)
    (validate_audit_hash : bool) (progress_callback : option Callback)
    (w : World) : Exc Summary * World :=
  let processor :=
    BatchProcessor_init (kc_api_url self) (kc_batch_size self)
                        (kc_max_retries self) (kc_timeout self)
                        progress_callback in
  process_all processor transactions validate_audit_hash w.

(** [f"{self.api_url}/paid-api/v1/reconcile/batch"], the address
    [process_batch] posts to. *)
Definition batch_endpoint (self : BatchProcessor) : string :=
  api_url self ++ "/paid-api/v1/reconcile/batch".

(** [s.endswith("/")] *)
Fixpoint ends_with_slash (s : string) : bool :=
  match s with
  | EmptyString => false
  | String c EmptyString => Ascii.eqb c "/"
  | String _ r => ends_with_slash r
  end.

Fixpoint slashes (n : nat) : string :=
  match n with
  | O => EmptyString
  | S k => String "/" (slashes k)
  end.

(* ================================================================== *)
(** ** Vocabulary of the further statements *)

(** What the server answers to window [k] of a run started in [w]. *)
Definition answer (self : BatchProcessor) (transactions : list Dict)
    (w : World) (k : nat) : PostOutcome :=
  server w (List.length (sent w) + k) (chunk self transactions k).

(** The items of an answer that can be iterated, none otherwise. *)
Definition items_of (out : PostOutcome) : list PyVal :=
  match out with
  | Responded r =>
      match body r with
      | BodyJson v =>
          match py_iter v with
          | inl items => items
          | inr _ => []
          end
      | _ => []
      end
  | TransportError _ => []
  end.

(** What [process_batch] raises on a response, if it raises.  Neither the
    timestamps nor the duration bear on it. *)
Definition response_error (batch : list Dict) (id : Z) (r : Response)
  : option PyExc :=
  match handle_response batch id EmptyString EmptyString f_zero r with
  | inl _ => None
  | inr e => Some e
  end.

(** The exception that sends window [k] into the [except] clause, if any:
    the transport's, the one [process_batch] raises on the response, or the
    callback's. *)
Definition window_failure (self : BatchProcessor) (transactions : list Dict)
    (w : World) (k : nat) : option PyExc :=
  match answer self transactions w k with
  | TransportError e => Some e
  | Responded r =>
      match response_error (chunk self transactions k) (id_of k) r with
      | Some e => Some e
      | None =>
          match progress_callback self with
          | Some callback =>
              callback (fst (progress_call self transactions k))
                       (snd (progress_call self transactions k))
          | None => None
          end
      end
  end.

Definition failure_entries (self : BatchProcessor) (transactions : list Dict)
    (w : World) (k : nat) : list FailedBatch :=
  match window_failure self transactions w k with
  | Some e => [mkFailedBatch (id_of k) (exc_str e)]
  | None => []
  end.

(** The line the [except] clause prints for an entry of [failed_batches]. *)
Definition error_line (fb : FailedBatch) : string :=
  "Error processing batch " ++ str_of_Z (fb_batch_id fb) ++ ": " ++ fb_error fb.

(** The results window [k] adds to the run. *)
Definition window_results (self : BatchProcessor) (transactions : list Dict)
    (w : World) (k : nat) (rs : list TransactionResult) : Prop :=
  if batch_accepted self transactions w k
  then exists req resp,
      build_results (id_of k) req resp 0
        (combine (chunk self transactions k)
                 (items_of (answer self transactions w k))) = inl rs
  else rs = [].

(** How many results window [k] adds. *)
Definition window_yield (self : BatchProcessor) (transactions : list Dict)
    (w : World) (k : nat) : nat :=
  if batch_accepted self transactions w k
  then Nat.min (List.length (chunk self transactions k))
               (List.length (items_of (answer self transactions w k)))
  else 0.

(** The id a result gets from its transaction when that carries one. *)
Definition declared_id (txn : Dict) : PyVal := dict_get "transaction_id" txn.

Definition has_id (txn : Dict) : bool := dict_contains "transaction_id" txn.

(** An item whose declared hash is the hash of the transaction overlaid
    with the item's own verdict. *)
Definition honest (txn : Dict) (item : PyVal) : Prop :=
  exists d, item = PDict d
            /\ dict_lookup "audit_hash" d
               = Some (PStr (compute_audit_hash (expected_data d txn))).

(** An answer all of whose items are honest for the transactions at their
    positions in the batch. *)
Definition honest_answer (batch : list Dict) (out : PostOutcome) : Prop :=
  forall (j : nat) (txn : Dict) (item : PyVal),
    nth_error batch j = Some txn ->
    nth_error (items_of out) j = Some item ->
    honest txn item.

(** Two results that agree on the four fields the validator reads. *)
Definition same_verdict_fields (r1 r2 : Dict) : Prop :=
  dict_lookup "audit_hash" r1 = dict_lookup "audit_hash" r2
  /\ dict_get "exception_flag" r1 = dict_get "exception_flag" r2
  /\ dict_get "reason_code" r1 = dict_get "reason_code" r2
  /\ dict_get "confidence" r1 = dict_get "confidence" r2.



Module SampleMore.

(** A callback that breaks when it is told that 2 transactions are done. *)
Definition brittle : Callback :=
  fun current total =>
    if (current =? 2)%Z then Some (mkExc "RuntimeError" "progress bar broke")
    else None.

Definition processor : BatchProcessor :=
  BatchProcessor_init "http://127.0.0.1:8000" 2 3 60 (Some brittle).

(** A service that signs each result with the hash of the transaction
    overlaid with its verdict. *)
Definition sign (txn : Dict) : PyVal :=
  PDict (Sample.signed_result txn).

Definition honest_server (n : nat) (payload : list Dict) : PostOutcome :=
  Responded (mkResponse 200 (BodyJson (PList (map sign payload)))).

(** A server that wraps its (empty) results in an object. *)
Definition wrapping_server (n : nat) (payload : list Dict) : PostOutcome :=
  Responded (mkResponse 200 (BodyJson (PDict [("results", PList [])]))).

End SampleMore.
(* ================================================================== *)
(** * Properties *)

(** ** Key order of the canonical serialization *)

Section KeyOrder.

Lemma ascii_compare_trans_lt (a b c : ascii) :
  Ascii.compare a b = Lt -> Ascii.compare b c = Lt -> Ascii.compare a c = Lt.
Proof.
  unfold Ascii.compare. rewrite !N.compare_lt_iff. apply N.lt_trans.
Qed.

Lemma string_compare_trans_lt (s t u : string) :
  String.compare s t = Lt -> String.compare t u = Lt -> String.compare s u = Lt.
Proof.
  revert t u. induction s as [|a s IH]; intros [|b t] [|c u]; simpl;
    try discriminate; auto.
  destruct (Ascii.compare a b) eqn:Hab; try discriminate;
    destruct (Ascii.compare b c) eqn:Hbc; try discriminate; intros H1 H2.
  - apply Ascii.compare_eq_iff in Hab, Hbc. subst.
    assert (Hcc : Ascii.compare c c = Eq)
      by (unfold Ascii.compare; apply N.compare_refl).
    rewrite Hcc. eauto.
  - apply Ascii.compare_eq_iff in Hab. subst. now rewrite Hbc.
  - apply Ascii.compare_eq_iff in Hbc. subst. now rewrite Hab.
  - now rewrite (ascii_compare_trans_lt _ _ _ Hab Hbc).
Qed.

Lemma string_compare_refl (s : string) : String.compare s s = Eq.
Proof.
  induction s as [|a s IH]; simpl; auto.
  assert (Haa : Ascii.compare a a = Eq)
    by (unfold Ascii.compare; apply N.compare_refl).
  now rewrite Haa.
Qed.

Lemma string_leb_trans (s t u : string) :
  String.leb s t = true -> String.leb t u = true -> String.leb s u = true.
Proof.
  unfold String.leb.
  destruct (String.compare s t) eqn:Hst; try discriminate;
    destruct (String.compare t u) eqn:Htu; try discriminate; intros _ _.
  - apply String.compare_eq_iff in Hst, Htu. subst.
    now rewrite string_compare_refl.
  - apply String.compare_eq_iff in Hst. subst. now rewrite Htu.
  - apply String.compare_eq_iff in Htu. subst. now rewrite Hst.
  - now rewrite (string_compare_trans_lt _ _ _ Hst Htu).
Qed.

Context {A : Type}.

Lemma insert_item_perm (x : string * A) (l : list (string * A)) :
  Permutation (insert_item x l) (x :: l).
Proof.
  induction l as [|y r IH]; simpl; auto.
  destruct (String.leb (fst x) (fst y)); auto.
  rewrite IH. apply perm_swap.
Qed.

Lemma sort_items_perm (l : list (string * A)) : Permutation (sort_items l) l.
Proof.
  induction l as [|x r IH]; simpl; auto.
  rewrite insert_item_perm. now constructor.
Qed.

Lemma insert_item_sorted (x : string * A) (l : list (string * A)) :
  StronglySorted key_le l -> StronglySorted key_le (insert_item x l).
Proof.
  induction 1 as [|y r Hr IH Hy]; simpl.
  - repeat constructor.
  - destruct (String.leb (fst x) (fst y)) eqn:Hxy.
    + constructor; [now constructor|].
      constructor; auto.
      eapply Forall_impl; [|exact Hy].
      intros z Hz. unfold key_le in *. eapply string_leb_trans; eauto.
    + constructor; auto.
      eapply Permutation_Forall.
      * symmetry. apply insert_item_perm.
      * constructor; auto. unfold key_le.
        destruct (String.leb_total (fst x) (fst y)); congruence.
Qed.

Lemma sort_items_sorted (l : list (string * A)) :
  StronglySorted key_le (sort_items l).
Proof.
  induction l; simpl; [constructor | now apply insert_item_sorted].
Qed.

(** A key-sorted list without repeated keys is determined by its items. *)
Lemma sorted_items_unique (l1 l2 : list (string * A)) :
  StronglySorted key_le l1 -> StronglySorted key_le l2 ->
  wf_dict l1 -> Permutation l1 l2 -> l1 = l2.
Proof.
  intros S1. revert l2. induction S1 as [|x r1 Sr1 IH Hx]; intros l2 S2 N1 P.
  - now apply Permutation_nil in P.
  - destruct S2 as [|y r2 Sr2 Hy].
    + symmetry in P. now apply Permutation_nil in P.
    + assert (N2 : wf_dict (y :: r2)).
      { unfold wf_dict, keys in *.
        eapply Permutation_NoDup; [apply Permutation_map; exact P | exact N1]. }
      assert (Hxy : x = y).
      { assert (Ix : In x (y :: r2))
          by (eapply Permutation_in; [exact P | now left]).
        assert (Iy : In y (x :: r1))
          by (eapply Permutation_in; [symmetry; exact P | now left]).
        destruct Ix as [->|Ix]; auto. destruct Iy as [->|Iy]; auto.
        rewrite Forall_forall in Hx, Hy.
        assert (Hk : fst x = fst y)
          by (apply String.leb_antisym; [apply Hx | apply Hy]; auto).
        exfalso. unfold wf_dict, keys in N2. simpl in N2.
        inversion N2 as [|? ? Hnin _]. apply Hnin. rewrite <- Hk.
        now apply in_map. }
      subst y. f_equal. apply IH; auto.
      * unfold wf_dict, keys in *. simpl in N1. now inversion N1.
      * eapply Permutation_cons_inv; eauto.
Qed.

Lemma sort_items_permutation_invariant (l1 l2 : list (string * A)) :
  wf_dict l1 -> Permutation l1 l2 -> sort_items l1 = sort_items l2.
Proof.
  intros N P. apply sorted_items_unique; try apply sort_items_sorted.
  - unfold wf_dict, keys in *.
    eapply Permutation_NoDup; [|exact N].
    apply Permutation_map. symmetry. apply sort_items_perm.
  - rewrite !sort_items_perm. exact P.
Qed.

End KeyOrder.

Lemma insert_item_map {A B} (f : A -> B) (x : string * A) (l : list (string * A)) :
  insert_item (fst x, f (snd x)) (map (fun kv => (fst kv, f (snd kv))) l)
  = map (fun kv => (fst kv, f (snd kv))) (insert_item x l).
Proof.
  induction l as [|y r IH]; simpl; auto.
  destruct (String.leb (fst x) (fst y)); simpl; auto. now rewrite IH.
Qed.

Lemma sort_items_map {A B} (f : A -> B) (l : list (string * A)) :
  sort_items (map (fun kv => (fst kv, f (snd kv))) l)
  = map (fun kv => (fst kv, f (snd kv))) (sort_items l).
Proof.
  induction l as [|x r IH]; simpl; auto.
  now rewrite IH, insert_item_map.
Qed.

(** The encoder on a dict, as the source has it: the items are sorted by
    key and each is written as ["key": value]. *)
Lemma json_dumps_dict (d : Dict) :
  json_dumps (PDict d)
  = "{" ++ String.concat ", "
             (map (fun kv => json_string (fst kv) ++ ": " ++ json_dumps (snd kv))
                  (sort_items d))
        ++ "}".
Proof.
  simpl. rewrite sort_items_map, map_map. reflexivity.
Qed.

Lemma json_dumps_permutation (d1 d2 : Dict) :
  wf_dict d1 -> Permutation d1 d2 -> json_dumps (PDict d1) = json_dumps (PDict d2).
Proof.
  intros N P. rewrite !json_dumps_dict.
  now rewrite (sort_items_permutation_invariant d1 d2 N P).
Qed.

(* ================================================================== *)
(** ** The hash validator *)

Lemma dict_contains_lookup (k : string) (d : Dict) :
  dict_contains k d = match dict_lookup k d with Some _ => true | None => false end.
Proof.
  induction d as [|[k' v] r IH]; simpl; auto.
  destruct (String.eqb k k'); simpl; auto.
Qed.

(** The verdict in one expression: the recomputed hash against the declared
    one, and [False] when none is declared. *)
Lemma validate_result_spec (result original : Dict) :
  validate_result result original
  = inl match dict_lookup "audit_hash" result with
        | Some declared =>
            str_eq_val (compute_audit_hash (expected_data result original)) declared
        | None => false
        end.
Proof.
  unfold validate_result, dict_getitem. rewrite dict_contains_lookup.
  destruct (dict_lookup "audit_hash" result); reflexivity.
Qed.

(** C6. Two mappings holding the same key-value pairs in different
    insertion orders have the same audit hash; in particular
    [{"a":1,"b":2}] and [{"b":2,"a":1}] do. *)
Theorem compute_audit_hash_key_order_independent :
  (forall d1 d2 : Dict,
      wf_dict d1 -> Permutation d1 d2 ->
      compute_audit_hash d1 = compute_audit_hash d2)
  /\ compute_audit_hash Sample.ab = compute_audit_hash Sample.ba.
Proof.
  assert (H : forall d1 d2 : Dict,
             wf_dict d1 -> Permutation d1 d2 ->
             compute_audit_hash d1 = compute_audit_hash d2).
  { intros d1 d2 N P. unfold compute_audit_hash.
    now rewrite (json_dumps_permutation d1 d2 N P). }
  split; [exact H|].
  apply H.
  - unfold wf_dict, Sample.ab. simpl.
    repeat constructor; simpl; intuition discriminate.
  - apply perm_swap.
Qed.

Lemma compute_audit_hash_key_order_witness :
  wf_dict (Sample.txn 7)
  /\ Permutation (Sample.txn 7) (rev (Sample.txn 7))
  /\ compute_audit_hash (Sample.txn 7) = compute_audit_hash (rev (Sample.txn 7)).
Proof.
  assert (N : wf_dict (Sample.txn 7)).
  { unfold wf_dict. simpl. repeat constructor; simpl; intuition discriminate. }
  assert (P : Permutation (Sample.txn 7) (rev (Sample.txn 7)))
    by apply Permutation_rev.
  split; [exact N|]. split; [exact P|].
  exact (proj1 compute_audit_hash_key_order_independent _ _ N P).
Defined.

(** C3. Round trip: a result whose [audit_hash] is [compute_audit_hash] of
    the transaction overlaid with the result's [exception_flag],
    [reason_code] and [confidence] validates against that transaction. *)
Theorem validate_result_round_trip (X result : Dict) :
  dict_lookup "audit_hash" result
  = Some (PStr (compute_audit_hash (expected_data result X))) ->
  validate_result result X = inl true.
Proof.
  intros H. rewrite validate_result_spec, H. simpl.
  now rewrite String.eqb_refl.
Qed.

Lemma validate_result_round_trip_witness :
  dict_lookup "audit_hash" (Sample.signed_result (Sample.txn 1))
  = Some (PStr (compute_audit_hash
                  (expected_data (Sample.signed_result (Sample.txn 1))
                                 (Sample.txn 1))))
  /\ validate_result (Sample.signed_result (Sample.txn 1)) (Sample.txn 1)
     = inl true.
Proof.
  assert (H : dict_lookup "audit_hash" (Sample.signed_result (Sample.txn 1))
              = Some (PStr (compute_audit_hash
                              (expected_data (Sample.signed_result (Sample.txn 1))
                                             (Sample.txn 1)))))
    by (vm_compute; reflexivity).
  split; [exact H|].
  exact (validate_result_round_trip (Sample.txn 1)
           (Sample.signed_result (Sample.txn 1)) H).
Defined.



(* ------------------------------------------------------------------ *)
(** *** What the validator leaves in the store *)

Lemma h_update_length (r : Ref) (f : Dict -> Dict) (h : Heap) :
  List.length (h_update r f h) = List.length h.
Proof.
  revert r. induction h as [|d t IH]; intros [|r]; simpl; auto.
Qed.

Lemma h_update_other (r a : Ref) (f : Dict -> Dict) (h : Heap) :
  a <> r -> nth_error (h_update r f h) a = nth_error h a.
Proof.
  revert r a. induction h as [|d t IH]; intros [|r] [|a] Hne; simpl; auto;
    congruence.
Qed.

Lemma h_update_same (r : Ref) (f : Dict -> Dict) (h : Heap) :
  (r < List.length h)%nat -> deref (h_update r f h) r = f (deref h r).
Proof.
  unfold deref. revert r. induction h as [|d t IH]; intros [|r] Hlt;
    simpl in *; try lia; auto.
  apply IH. lia.
Qed.

Lemma deref_nth_error (h h' : Heap) (a : Ref) :
  nth_error h' a = nth_error h a -> deref h' a = deref h a.
Proof.
  unfold deref. intros H.
  rewrite <- (nth_default_eq a h'), <- (nth_default_eq a h).
  unfold nth_default. now rewrite H.
Qed.

Lemma h_setitem_frame (fresh a : Ref) (k : string) (v : PyVal) (h : Heap) :
  a <> fresh -> nth_error (h_setitem fresh k v h) a = nth_error h a.
Proof. apply h_update_other. Qed.

(** C9. [validate_result] leaves both arguments as they were: every dict
    object that existed before the call, the result and the original
    transaction among them, holds the same items afterwards; the
    reconstructed expected-data mapping is a new object.  The verdict is
    that of [validate_result] on the contents. *)
Theorem validate_result_leaves_arguments_unchanged
    (h : Heap) (result original : Ref) :
  (result < List.length h)%nat -> (original < List.length h)%nat ->
  let h' := snd (validate_result_ref result original h) in
  deref h' result = deref h result
  /\ deref h' original = deref h original
  /\ (forall a : Ref, (a < List.length h)%nat -> nth_error h' a = nth_error h a)
  /\ fst (validate_result_ref result original h)
     = validate_result (deref h result) (deref h original).
Proof.
  intros Hr Ho. unfold validate_result_ref, validate_result.
  destruct (negb (dict_contains "audit_hash" (deref h result))) eqn:Hc;
    cbv zeta; [simpl; auto|].
  unfold h_alloc. cbv zeta. cbn [fst snd].
  set (fresh := List.length h).
  set (h1 := (h ++ [deref h original])%list).
  set (h2 := h_setitem fresh "exception_flag" _ h1).
  set (h3 := h_setitem fresh "reason_code" _ h2).
  set (h4 := h_setitem fresh "confidence" _ h3).
  assert (F : forall a, (a < List.length h)%nat -> nth_error h4 a = nth_error h a).
  { intros a Ha. unfold h4, h3, h2.
    rewrite !h_setitem_frame by (unfold fresh; lia).
    unfold h1. now rewrite nth_error_app1. }
  assert (D : forall a, (a < List.length h)%nat -> deref h4 a = deref h a)
    by (intros a Ha; apply deref_nth_error; auto).
  assert (D1 : forall a, (a < List.length h)%nat -> deref h1 a = deref h a).
  { intros a Ha. apply deref_nth_error. unfold h1. now rewrite nth_error_app1. }
  assert (D2 : forall a, (a < List.length h)%nat -> deref h2 a = deref h a).
  { intros a Ha. rewrite <- D1 by auto. apply deref_nth_error.
    apply h_setitem_frame. unfold fresh. lia. }
  assert (D3 : forall a, (a < List.length h)%nat -> deref h3 a = deref h a).
  { intros a Ha. rewrite <- D2 by auto. apply deref_nth_error.
    apply h_setitem_frame. unfold fresh. lia. }
  assert (L1 : List.length h1 = S fresh)
    by (unfold h1, fresh; rewrite length_app; simpl; lia).
  assert (L2 : List.length h2 = S fresh)
    by (unfold h2, h_setitem; now rewrite h_update_length).
  assert (L3 : List.length h3 = S fresh)
    by (unfold h3, h_setitem; now rewrite h_update_length).
  assert (E1 : deref h1 fresh = deref h original)
    by (unfold deref, h1, fresh; now rewrite nth_middle).
  assert (E2 : deref h2 fresh
               = dict_set "exception_flag"
                   (dict_get "exception_flag" (deref h result)) (deref h original)).
  { unfold h2, h_setitem. rewrite h_update_same by lia.
    now rewrite D1, E1 by auto. }
  assert (E3 : deref h3 fresh
               = dict_set "reason_code"
                   (dict_get "reason_code" (deref h result)) (deref h2 fresh)).
  { unfold h3, h_setitem. rewrite h_update_same by lia.
    now rewrite D2 by auto. }
  assert (E : deref h4 fresh = expected_data (deref h result) (deref h original)).
  { unfold h4, h_setitem. rewrite h_update_same by lia.
    rewrite D3, E3, E2 by auto. reflexivity. }
  repeat split; auto.
  now rewrite E, D.
Qed.

Lemma validate_result_leaves_arguments_unchanged_witness :
  (SampleHeap.result < List.length SampleHeap.heap)%nat
  /\ (SampleHeap.original < List.length SampleHeap.heap)%nat
  /\ deref (snd (validate_result_ref SampleHeap.result SampleHeap.original
                   SampleHeap.heap)) SampleHeap.result
     = deref SampleHeap.heap SampleHeap.result.
Proof.
  assert (Hr : (SampleHeap.result < List.length SampleHeap.heap)%nat)
    by (unfold SampleHeap.result, SampleHeap.heap; simpl List.length; lia).
  assert (Ho : (SampleHeap.original < List.length SampleHeap.heap)%nat)
    by (unfold SampleHeap.original, SampleHeap.heap; simpl List.length; lia).
  split; [exact Hr|]. split; [exact Ho|].
  exact (proj1 (validate_result_leaves_arguments_unchanged
                  SampleHeap.heap SampleHeap.result SampleHeap.original Hr Ho)).
Defined.

(* ================================================================== *)
(** ** [process_batch] *)

Lemma same_but_stdout_refl (w : World) : same_but_stdout w w.
Proof. repeat split. Qed.

Lemma same_but_stdout_print (line : string) (w : World) :
  same_but_stdout w (print line w).
Proof. repeat split. Qed.

(** The call unfolded against the answer of the server. *)
Lemma process_batch_eq (transactions : list Dict) (id : Z) (w : World) :
  process_batch transactions id w
  = let w' := mkWorld (clock w)
                (match server w (List.length (sent w)) transactions with
                 | Responded _ => 4 + ticks w
                 | TransportError _ => 2 + ticks w
                 end)%nat
                (server w) (sent w ++ [transactions])%list (stdout w) (progress w) in
    match server w (List.length (sent w)) transactions with
    | TransportError e => (inr e, w')
    | Responded r =>
        (handle_response transactions id
           (utc_iso (clock w (1 + ticks w)%nat))
           (utc_iso (clock w (2 + ticks w)%nat))
           (f_sub (unix_time (clock w (3 + ticks w)%nat))
                  (unix_time (clock w (ticks w))))
           r, w')
    end.
Proof.
  unfold process_batch, time_time, utc_now_iso, session_post, tick. simpl.
  destruct (server w (List.length (sent w)) transactions); reflexivity.
Qed.

Lemma process_batch_world (transactions : list Dict) (id : Z) (w : World) :
  let w' := snd (process_batch transactions id w) in
  clock w' = clock w /\ server w' = server w
  /\ sent w' = (sent w ++ [transactions])%list
  /\ stdout w' = stdout w /\ progress w' = progress w.
Proof.
  rewrite process_batch_eq. cbv zeta.
  destruct (server w (List.length (sent w)) transactions); simpl; auto.
Qed.

Lemma dict_getitem_returns (k : string) (d : Dict) :
  returns (dict_getitem k d) = dict_contains k d.
Proof.
  unfold dict_getitem. rewrite dict_contains_lookup.
  destruct (dict_lookup k d); reflexivity.
Qed.

Lemma make_result_returns (id : Z) (a b : string) (i : Z) (txn : Dict) (r : PyVal) :
  returns (make_result id a b i txn r) = result_ok r.
Proof.
  unfold make_result, result_ok.
  destruct r; try reflexivity.
  unfold py_getitem, py_get.
  rewrite <- !dict_getitem_returns.
  destruct (dict_getitem "audit_hash" d); simpl; auto.
  destruct (dict_getitem "exception_flag" d); simpl; auto.
  destruct (dict_getitem "reason_code" d); simpl; auto.
  destruct (dict_getitem "confidence" d); simpl; auto.
Qed.

Lemma build_results_returns (id : Z) (a b : string) (i : Z)
    (pairs : list (Dict * PyVal)) :
  returns (build_results id a b i pairs) = forallb result_ok (map snd pairs).
Proof.
  revert i. induction pairs as [|[txn r] rest IH]; intros i; simpl; auto.
  rewrite <- (make_result_returns id a b i txn r), <- (IH (i + 1)%Z).
  destruct (make_result id a b i txn r); simpl; auto.
  destruct (build_results id a b (i + 1) rest); reflexivity.
Qed.

Lemma build_results_length (id : Z) (a b : string) (i : Z)
    (pairs : list (Dict * PyVal)) (rs : list TransactionResult) :
  build_results id a b i pairs = inl rs -> List.length rs = List.length pairs.
Proof.
  revert i rs. induction pairs as [|[txn r] rest IH]; intros i rs; simpl.
  - intros H. inversion H. reflexivity.
  - destruct (make_result id a b i txn r); simpl; try discriminate.
    destruct (build_results id a b (i + 1) rest) eqn:E; simpl; try discriminate.
    intros H. inversion H. simpl. f_equal. eapply IH; eauto.
Qed.

Lemma map_snd_combine {A B} (l : list A) (l' : list B) :
  map snd (combine l l') = firstn (List.length l) l'.
Proof.
  revert l'. induction l as [|x l IH]; intros [|y l']; simpl; auto.
  now rewrite IH.
Qed.

(** [process_batch] returns on a response exactly when the status is 200
    and the body answers the batch. *)
Lemma handle_response_returns (transactions : list Dict) (id : Z)
    (a b : string) (d : spec_float) (r : Response) :
  returns (handle_response transactions id a b d r)
  = accepted transactions (Responded r).
Proof.
  unfold handle_response, accepted, body_ok, response_json.
  destruct (status_code r =? 200)%Z; simpl.
  - destruct (body r) as [|v|msg]; simpl; auto.
    destruct (py_iter v) as [items|e]; simpl; auto.
    rewrite <- map_snd_combine, <- (build_results_returns id a b 0%Z).
    destruct (build_results id a b 0 (combine transactions items)); reflexivity.
  - destruct (response_has_text r); simpl; auto.
    destruct (body r) as [|v|msg]; simpl; auto.
    destruct (py_get v "detail" (PStr "Unknown error")); reflexivity.
Qed.

(** What a returned [BatchResult] holds. *)
Lemma handle_response_result (transactions : list Dict) (id : Z)
    (a b : string) (d : spec_float) (r : Response) (br : BatchResult) :
  handle_response transactions id a b d r = inl br ->
  exists v items,
    body r = BodyJson v /\ py_iter v = inl items
    /\ build_results id a b 0 (combine transactions items) = inl (results br)
    /\ batch_id br = id
    /\ total_transactions br = len transactions
    /\ successful br = len (results br)
    /\ failed br = 0%Z
    /\ duration_seconds br = d
    /\ throughput br = throughput_of (len transactions) d.
Proof.
  unfold handle_response, response_json.
  destruct (status_code r =? 200)%Z; simpl.
  - destruct (body r) as [|v|msg]; simpl; try discriminate.
    destruct (py_iter v) as [items|e] eqn:Ei; simpl; try discriminate.
    destruct (build_results id a b 0 (combine transactions items)) as [rs|e]
      eqn:Eb; simpl; try discriminate.
    intros H. inversion H. simpl. exists v, items. repeat split; auto.
  - destruct (response_has_text r); simpl; try discriminate.
    destruct (body r) as [|v|msg]; simpl; try discriminate.
    destruct (py_get v "detail" (PStr "Unknown error")); discriminate.
Qed.

(* ================================================================== *)
(** ** One turn of the loop of [process_all] *)

Lemma invalid_hashes_returns (batch : list Dict) (rs : list TransactionResult)
    (j : nat) :
  (j + List.length rs <= List.length batch)%nat ->
  exists bad, invalid_hashes batch j rs = inl bad.
Proof.
  revert j. induction rs as [|r rest IH]; intros j Hle;
    cbn [invalid_hashes List.length] in *.
  - eexists. reflexivity.
  - destruct (nth_error batch j) as [original|] eqn:En.
    + cbn [ebind ret]. rewrite validate_result_spec.
      destruct (IH (S j)) as [more Hm]; [lia|]. rewrite Hm.
      eexists. reflexivity.
    + apply nth_error_None in En. lia.
Qed.

(** The optional validation never raises and only prints. *)
Lemma validate_batch_quiet (id : Z) (batch : list Dict)
    (rs : list TransactionResult) (w : World) :
  (List.length rs <= List.length batch)%nat ->
  exists w', validate_batch id batch rs w = (inl tt, w') /\ same_but_stdout w w'.
Proof.
  intros Hle. unfold validate_batch.
  destruct (invalid_hashes_returns batch rs 0) as [bad Hb]; [lia|].
  rewrite Hb. destruct bad.
  - eexists. split; [reflexivity | apply same_but_stdout_refl].
  - eexists. split; [reflexivity | apply same_but_stdout_print].
Qed.

Lemma handle_response_results_length (transactions : list Dict) (id : Z)
    (a b : string) (d : spec_float) (r : Response) (br : BatchResult) :
  handle_response transactions id a b d r = inl br ->
  (List.length (results br) <= List.length transactions)%nat.
Proof.
  intros H. apply handle_response_result in H.
  destruct H as (v & items & _ & _ & Hb & _).
  apply build_results_length in Hb. rewrite Hb, length_combine. lia.
Qed.

Section Step.

Variable self : BatchProcessor.
Variable transactions : list Dict.
Variable validate_audit_hash : bool.
Variable total : Z.

Hypothesis size_positive : (1 <= batch_size self)%Z.

Lemma batch_id_of_index (k : nat) :
  (Z.of_nat k * batch_size self / batch_size self + 1)%Z = id_of k.
Proof. unfold id_of. rewrite Z.div_mul by lia. reflexivity. Qed.

Lemma step_spec (acc : Acc) (w : World) (k : nat) :
  let c := chunk self transactions k in
  let ok := accepted c (server w (List.length (sent w)) c) in
  let call := ((Z.of_nat k * batch_size self + len c)%Z, total) in
  exists acc' w' rs,
    process_all_step self transactions validate_audit_hash total (acc, w)
                     (Z.of_nat k * batch_size self)%Z = (acc', w')
    /\ server w' = server w
    /\ sent w' = (sent w ++ [c])%list
    /\ progress w' = (progress w ++ if has_callback self && ok then [call] else [])%list
    /\ all_results acc' = (all_results acc ++ rs)%list
    /\ (ok = false -> rs = [])
    /\ (List.length rs <= List.length c)%nat
    /\ map fb_batch_id (failed_batches acc')
       = (map fb_batch_id (failed_batches acc)
            ++ if negb ok || callback_raises self call then [id_of k] else [])%list.
Proof.
  intros c ok call. unfold process_all_step.
  rewrite batch_id_of_index. fold (chunk self transactions k). fold c.
  rewrite process_batch_eq. cbv zeta.
  unfold ok, callback_raises, has_callback.
  destruct (server w (List.length (sent w)) c) as [r|e] eqn:Es.
  - rewrite <- (handle_response_returns c (id_of k)
                  (utc_iso (clock w (1 + ticks w)%nat))
                  (utc_iso (clock w (2 + ticks w)%nat))
                  (f_sub (unix_time (clock w (3 + ticks w)%nat))
                         (unix_time (clock w (ticks w)))) r).
    destruct (handle_response c (id_of k) _ _ _ r) as [br|e] eqn:Eh; simpl returns.
    + pose proof (handle_response_results_length _ _ _ _ _ _ _ Eh) as Hlen.
      set (w1 := mkWorld _ _ _ _ _ _).
      assert (Hv : exists w2,
                 (if validate_audit_hash
                  then validate_batch (id_of k) c (results br) w1
                  else (ret tt, w1)) = (inl tt, w2)
                 /\ same_but_stdout w1 w2).
      { destruct validate_audit_hash.
        - apply validate_batch_quiet; auto.
        - exists w1. split; [reflexivity | apply same_but_stdout_refl]. }
      destruct Hv as (w2 & Ev & _ & _ & Hsrv & Hsent & Hprog). rewrite Ev.
      destruct (progress_callback self) as [callback|]; simpl.
      * destruct (callback (Z.of_nat k * batch_size self + len c)%Z total);
          simpl; do 3 eexists; (split; [reflexivity|]); simpl;
          rewrite ?Hsrv, ?Hsent, ?Hprog; repeat split; auto;
          try discriminate; now rewrite ?map_app, ?app_nil_r.
      * do 3 eexists; (split; [reflexivity|]); simpl;
          rewrite ?Hsrv, ?Hsent, ?Hprog; repeat split; auto;
          try discriminate; now rewrite ?map_app, ?app_nil_r.
    + rewrite andb_false_r. simpl.
      exists (fst (on_exception (id_of k) e acc w)), (snd (on_exception (id_of k) e acc
        (mkWorld (clock w) (4 + ticks w)%nat (server w) (sent w ++ [c])%list
                 (stdout w) (progress w)))), [].
      simpl. repeat split; auto; try (simpl; lia);
        now rewrite ?map_app, ?app_nil_r.
  - rewrite andb_false_r. simpl.
    do 2 eexists. exists []. split; [reflexivity|]. simpl.
    repeat split; auto; try lia; now rewrite ?map_app, ?app_nil_r.
Qed.

End Step.

(* ================================================================== *)
(** ** The loop of [process_all] *)

Section Loop.

Variable self : BatchProcessor.
Variable transactions : list Dict.
Variable validate_audit_hash : bool.

Hypothesis size_positive : (1 <= batch_size self)%Z.


(** Windows [s], [s+1], ..., [s+n-1], run from a world that has seen the
    [s] windows before them. *)
Lemma loop_spec (w0 : World) (n : nat) :
  forall (s : nat) (acc : Acc) (w : World),
    server w = server w0 ->
    List.length (sent w) = (List.length (sent w0) + s)%nat ->
    exists acc' w' rs,
      fold_left (process_all_step self transactions validate_audit_hash
                                  (len transactions))
                (map (index_of self) (seq s n)) (acc, w) = (acc', w')
      /\ server w' = server w0
      /\ sent w' = (sent w ++ map (chunk self transactions) (seq s n))%list
      /\ progress w'
         = (progress w
              ++ if has_callback self
                 then map (progress_call self transactions)
                          (filter (batch_accepted self transactions w0) (seq s n))
                 else [])%list
      /\ all_results acc' = (all_results acc ++ rs)%list
      /\ map fb_batch_id (failed_batches acc')
         = (map fb_batch_id (failed_batches acc)
              ++ map id_of (filter (batch_fails self transactions w0) (seq s n)))%list.
Proof.
  induction n as [|n IH]; intros s acc w Hsrv Hlen.
  - exists acc, w, []. simpl. rewrite !app_nil_r.
    destruct (has_callback self); rewrite ?app_nil_r; repeat split; auto.
  - cbn [seq map fold_left].
    destruct (step_spec self transactions validate_audit_hash (len transactions)
                size_positive acc w s)
      as (acc1 & w1 & rs1 & E1 & S1 & T1 & P1 & R1 & _ & _ & F1).
    change (index_of self s) with (Z.of_nat s * batch_size self)%Z.
    rewrite E1.
    destruct (IH (S s) acc1 w1) as (acc2 & w2 & rs2 & E2 & S2 & T2 & P2 & R2 & F2).
    { now rewrite S1. }
    { rewrite T1, length_app, Hlen. simpl. lia. }
    exists acc2, w2, (rs1 ++ rs2)%list. split; [exact E2|].
    split; [exact S2|].
    assert (Hok : accepted (chunk self transactions s)
                    (server w (List.length (sent w)) (chunk self transactions s))
                  = batch_accepted self transactions w0 s).
    { unfold batch_accepted. now rewrite Hsrv, Hlen. }
    rewrite Hok in P1, F1.
    split; [|split; [|split]].
    + rewrite T2, T1, <- app_assoc. reflexivity.
    + rewrite P2, P1, <- app_assoc. f_equal.
      cbn [filter]. fold (progress_call self transactions s).
      destruct (has_callback self); simpl; auto.
      destruct (batch_accepted self transactions w0 s); reflexivity.
    + rewrite R2, R1, <- app_assoc. reflexivity.
    + rewrite F2, F1, <- app_assoc. f_equal.
      cbn [filter]. unfold batch_fails at 2.
      fold (progress_call self transactions s).
      destruct (negb (batch_accepted self transactions w0 s)
                || callback_raises self (progress_call self transactions s));
        reflexivity.
Qed.

(** [process_all] returns, and this is what it has done by then. *)
Lemma process_all_spec (w : World) :
  exists summary w',
    process_all self transactions validate_audit_hash w = (inl summary, w')
    /\ sent w' = (sent w ++ map (chunk self transactions) (seq 0 (window_count self transactions)))%list
    /\ progress w'
       = (progress w
            ++ if has_callback self
               then map (progress_call self transactions)
                        (filter (batch_accepted self transactions w)
                                (seq 0 (window_count self transactions)))
               else [])%list
    /\ map fb_batch_id (s_failed_batches summary)
       = map id_of (filter (batch_fails self transactions w) (seq 0 (window_count self transactions)))
    /\ s_total_transactions summary = len transactions
    /\ s_successful summary = len (s_results summary)
    /\ s_failed summary = (len transactions - len (s_results summary))%Z
    /\ s_throughput summary
       = throughput_of (len transactions) (s_total_time summary).
Proof.
  unfold process_all, py_range, time_time.
  destruct (batch_size self =? 0)%Z eqn:E0; [lia|].
  destruct (batch_size self <? 0)%Z eqn:E1; [lia|].
  destruct (loop_spec w (window_count self transactions) 0 (mkAcc [] []) (tick w))
    as (acc' & w' & rs & E & S & T & P & R & F); auto.
  unfold window_count in E. unfold index_of in E at 1.
  unfold ret. cbv beta iota. rewrite E.
  do 2 eexists. split; [reflexivity|]. simpl.
  rewrite T, P, F. simpl. repeat split; reflexivity.
Qed.

End Loop.

(* ================================================================== *)
(** ** The windows partition the input *)

Lemma concat_windows {A} (b : nat) (l : list A) (c : nat) :
  forall s : nat,
    (List.length l <= (s + c) * b)%nat ->
    List.concat (map (fun k => firstn b (skipn (k * b) l)) (seq s c))
    = skipn (s * b) l.
Proof.
  induction c as [|c IH]; intros s Hlen; simpl.
  - symmetry. apply skipn_all2. lia.
  - rewrite IH by lia.
    change (S s * b)%nat with (b + s * b)%nat.
    rewrite <- (skipn_skipn b (s * b) l).
    apply firstn_skipn.
Qed.

Section Windows.

Variable self : BatchProcessor.
Variable transactions : list Dict.
Hypothesis size_positive : (1 <= batch_size self)%Z.

Lemma chunk_nat (k : nat) :
  chunk self transactions k
  = firstn (Z.to_nat (batch_size self))
           (skipn (k * Z.to_nat (batch_size self)) transactions).
Proof.
  unfold chunk, py_slice. f_equal.
  - rewrite Z2Nat.inj_add, Z2Nat.inj_mul, Nat2Z.id by lia. lia.
  - f_equal. rewrite Z2Nat.inj_mul, Nat2Z.id by lia. reflexivity.
Qed.

Lemma chunk_length (k : nat) :
  len (chunk self transactions k)
  = Z.max 0 (Z.min (batch_size self)
                   (len transactions - Z.of_nat k * batch_size self)).
Proof.
  rewrite chunk_nat. unfold len. rewrite length_firstn, length_skipn. nia.
Qed.

Lemma window_count_spec :
  (len transactions <= Z.of_nat (window_count self transactions) * batch_size self
   < len transactions + batch_size self)%Z.
Proof.
  unfold window_count.
  assert (0 <= len transactions)%Z by (unfold len; lia).
  set (q := ((len transactions + batch_size self - 1) / batch_size self)%Z).
  assert (Hq : (0 <= q)%Z) by (apply Z.div_pos; lia).
  rewrite Z2Nat.id by exact Hq.
  pose proof (Z.div_mod (len transactions + batch_size self - 1) (batch_size self)
                ltac:(lia)) as Hdm.
  pose proof (Z.mod_pos_bound (len transactions + batch_size self - 1)
                (batch_size self) ltac:(lia)) as Hm.
  fold q in Hdm. nia.
Qed.

Lemma windows_concat :
  List.concat (map (chunk self transactions)
                   (seq 0 (window_count self transactions)))
  = transactions.
Proof.
  rewrite (map_ext _ _ chunk_nat).
  rewrite concat_windows; [reflexivity|].
  pose proof window_count_spec as [H _]. unfold len in H. simpl. nia.
Qed.


End Windows.

(** C1. With an effective batch size [B >= 1] (the configured size capped
    at 5000), [process_all] on [N] transactions returns after exactly
    [ceil(N/B)] submissions, each of at most [B] transactions; submission
    [k] carries the slice [[k*B, (k+1)*B)], and together, in order, the
    submissions are the input list. *)
Theorem process_all_partitions_input
    (url : string) (configured retries seconds : Z) (cb : option Callback)
    (transactions : list Dict) (validate_audit_hash : bool) (w : World) :
  let self := BatchProcessor_init url configured retries seconds cb in
  let B := Z.min configured 5000 in
  let N := len transactions in
  (1 <= B)%Z ->
  exists summary w' submitted,
    process_all self transactions validate_audit_hash w = (inl summary, w')
    /\ batch_size self = B
    /\ sent w' = (sent w ++ submitted)%list
    /\ (N <= len submitted * B < N + B)%Z
    /\ Forall (fun c => (len c <= B)%Z) submitted
    /\ (forall k : nat,
           (k < List.length submitted)%nat ->
           nth k submitted []
           = py_slice transactions (Z.of_nat k * B) ((Z.of_nat k + 1) * B))
    /\ List.concat submitted = transactions.
Proof.
  intros self B N HB.
  assert (Hsize : (1 <= batch_size self)%Z) by exact HB.
  destruct (process_all_spec self transactions validate_audit_hash Hsize w)
    as (summary & w' & E & T & _).
  exists summary, w',
    (map (chunk self transactions) (seq 0 (window_count self transactions))).
  split; [exact E|]. split; [reflexivity|]. split; [exact T|].
  split; [|split; [|split]].
  - replace (len (map (chunk self transactions)
                      (seq 0 (window_count self transactions))))
      with (Z.of_nat (window_count self transactions))
      by (unfold len; now rewrite length_map, length_seq).
    apply (window_count_spec self transactions Hsize).
  - apply Forall_forall. intros c Hc. apply in_map_iff in Hc.
    destruct Hc as (k & <- & _).
    rewrite (chunk_length self transactions Hsize).
    change (batch_size self) with B. lia.
  - intros k Hk. rewrite length_map, length_seq in Hk.
    rewrite (nth_indep _ [] (chunk self transactions 0))
      by (now rewrite length_map, length_seq).
    rewrite map_nth, seq_nth by exact Hk. unfold chunk. simpl Nat.add.
    change (batch_size self) with B. f_equal. lia.
  - apply (windows_concat self transactions Hsize).
Qed.

Lemma process_all_partitions_input_witness :
  (1 <= Z.min 2 5000)%Z
  /\ exists summary w' submitted,
       process_all (SampleRun.processor 2) SampleRun.five true
                   (SampleRun.world SampleRun.echo_server)
       = (inl summary, w')
       /\ List.concat submitted = SampleRun.five
       /\ sent w' = submitted.
Proof.
  assert (H : (1 <= Z.min 2 5000)%Z) by (vm_compute; discriminate).
  split; [exact H|].
  destruct (process_all_partitions_input "http://127.0.0.1:8000/" 2 3 60
              (Some SampleRun.quiet) SampleRun.five true
              (SampleRun.world SampleRun.echo_server) H)
    as (summary & w' & submitted & E & _ & T & _ & _ & _ & C).
  exists summary, w', submitted. auto.
Defined.

(* ================================================================== *)
(** ** Progress reporting *)





(* ================================================================== *)
(** ** What one turn does, by the answer of the server *)

Section Turns.

Variable self : BatchProcessor.
Variable transactions : list Dict.
Variable validate_audit_hash : bool.
Variable total : Z.

Hypothesis size_positive : (1 <= batch_size self)%Z.

(** The request is lost: the batch is recorded as failed and adds no
    result. *)
Lemma step_transport_error (acc : Acc) (w : World) (k : nat) (e : PyExc) :
  let c := chunk self transactions k in
  server w (List.length (sent w)) c = TransportError e ->
  exists w',
    process_all_step self transactions validate_audit_hash total (acc, w)
                     (Z.of_nat k * batch_size self)%Z
    = (mkAcc (all_results acc)
             (failed_batches acc ++ [mkFailedBatch (id_of k) (exc_str e)])%list,
       w')
    /\ clock w' = clock w /\ ticks w' = (2 + ticks w)%nat
    /\ server w' = server w /\ sent w' = (sent w ++ [c])%list
    /\ progress w' = progress w.
Proof.
  intros c Hs. unfold process_all_step.
  rewrite (batch_id_of_index self size_positive).
  fold (chunk self transactions k). fold c.
  rewrite process_batch_eq. cbv zeta. rewrite Hs.
  eexists. split; [reflexivity|]. simpl. auto.
Qed.

(** The request is answered with 200 and a usable array: the results are
    appended, nothing is recorded as failed. *)
Lemma step_success (acc : Acc) (w : World) (k : nat) (items : list PyVal) :
  let c := chunk self transactions k in
  server w (List.length (sent w)) c
  = Responded (mkResponse 200 (BodyJson (PList items))) ->
  forallb result_ok (firstn (List.length c) items) = true ->
  callback_raises self ((Z.of_nat k * batch_size self + len c)%Z, total) = false ->
  exists rs w',
    process_all_step self transactions validate_audit_hash total (acc, w)
                     (Z.of_nat k * batch_size self)%Z
    = (mkAcc (all_results acc ++ rs)%list (failed_batches acc), w')
    /\ build_results (id_of k)
         (utc_iso (clock w (1 + ticks w)%nat))
         (utc_iso (clock w (2 + ticks w)%nat)) 0 (combine c items) = inl rs
    /\ clock w' = clock w /\ ticks w' = (4 + ticks w)%nat
    /\ server w' = server w /\ sent w' = (sent w ++ [c])%list.
Proof.
  intros c Hs Hok Hcb. unfold process_all_step.
  rewrite (batch_id_of_index self size_positive).
  fold (chunk self transactions k). fold c.
  rewrite process_batch_eq. cbv zeta. rewrite Hs.
  set (a := utc_iso (clock w (1 + ticks w)%nat)).
  set (b := utc_iso (clock w (2 + ticks w)%nat)).
  destruct (build_results (id_of k) a b 0 (combine c items)) as [rs|e] eqn:Eb.
  2:{ pose proof (build_results_returns (id_of k) a b 0 (combine c items)) as Hr.
      rewrite Eb, map_snd_combine, Hok in Hr. discriminate. }
  unfold handle_response, response_json. simpl. rewrite Eb. simpl.
  set (w1 := mkWorld _ _ _ _ _ _).
  assert (Hlen : (List.length rs <= List.length c)%nat).
  { apply build_results_length in Eb. rewrite Eb, length_combine. lia. }
  assert (Hv : exists w2,
             (if validate_audit_hash
              then validate_batch (id_of k) c rs w1
              else (ret tt, w1)) = (inl tt, w2)
             /\ same_but_stdout w1 w2).
  { destruct validate_audit_hash.
    - apply validate_batch_quiet; auto.
    - exists w1. split; [reflexivity | apply same_but_stdout_refl]. }
  destruct Hv as (w2 & Ev & Hclk & Htk & Hsrv & Hsent & Hprog). rewrite Ev.
  unfold callback_raises in Hcb. simpl in Hcb.
  destruct (progress_callback self) as [callback|].
  - destruct (callback (Z.of_nat k * batch_size self + len c)%Z total);
      [discriminate|].
    exists rs. eexists. split; [reflexivity|]. simpl.
    rewrite Hclk, Htk, Hsrv, Hsent. repeat split; auto.
  - exists rs, w2. split; [reflexivity|].
    rewrite Hclk, Htk, Hsrv, Hsent. repeat split; auto.
Qed.

End Turns.

(* ================================================================== *)
(** ** Failure isolation on the 2500-transaction run *)

(** Results are built position by position. *)
Lemma build_results_nth (id : Z) (a b : string) (pairs : list (Dict * PyVal)) :
  forall (i : Z) (rs : list TransactionResult),
    build_results id a b i pairs = inl rs ->
    forall (j : nat) (txn : Dict) (item : PyVal),
      nth_error pairs j = Some (txn, item) ->
      exists r, nth_error rs j = Some r
                /\ make_result id a b (i + Z.of_nat j) txn item = inl r.
Proof.
  induction pairs as [|[t0 r0] rest IH]; intros i rs Hb j txn item Hj.
  - destruct j; discriminate.
  - cbn [build_results] in Hb.
    destruct (make_result id a b i t0 r0) as [x|e] eqn:Em; [|discriminate].
    destruct (build_results id a b (i + 1) rest) as [xs|e] eqn:Er; [|discriminate].
    inversion Hb; subst rs. destruct j as [|j].
    + inversion Hj; subst. exists x. split; [reflexivity|].
      now rewrite Z.add_0_r.
    + destruct (IH _ _ Er j txn item Hj) as (r & Hn & Hm).
      exists r. split; [exact Hn|].
      rewrite <- Hm. f_equal. lia.
Qed.

(** C4. 2500 transactions, batch size 1000: three submissions of 1000,
    1000 and 500 transactions.  When the second is lost in transport and
    the other two are answered with full-length result arrays, the summary
    reports 1500 successful, 1000 failed, one failed batch whose id is 2,
    and 1500 results: those of batch 1 followed by those of batch 3, each
    built position by position from its batch. *)
Theorem second_batch_lost_of_three
    (url : string) (retries seconds : Z) (cb : option Callback)
    (transactions : list Dict) (validate_audit_hash : bool) (w : World)
    (r1 r3 : list PyVal) (e : PyExc) :
  let self := BatchProcessor_init url 1000 retries seconds cb in
  let n := List.length (sent w) in
  let b1 := firstn 1000 transactions in
  let b2 := firstn 1000 (skipn 1000 transactions) in
  let b3 := skipn 2000 transactions in
  List.length transactions = 2500%nat ->
  (forall call, callback_raises self call = false) ->
  server w n b1 = Responded (mkResponse 200 (BodyJson (PList r1))) ->
  List.length r1 = 1000%nat -> forallb result_ok r1 = true ->
  server w (n + 1) b2 = TransportError e ->
  server w (n + 2) b3 = Responded (mkResponse 200 (BodyJson (PList r3))) ->
  List.length r3 = 500%nat -> forallb result_ok r3 = true ->
  exists summary w' R1 R3 req1 resp1 req3 resp3,
    process_all self transactions validate_audit_hash w = (inl summary, w')
    /\ sent w' = (sent w ++ [b1; b2; b3])%list
    /\ s_total_transactions summary = 2500%Z
    /\ s_successful summary = 1500%Z
    /\ s_failed summary = 1000%Z
    /\ s_failed_batches summary = [mkFailedBatch 2 (exc_str e)]
    /\ s_results summary = (R1 ++ R3)%list
    /\ List.length (s_results summary) = 1500%nat
    /\ build_results 1 req1 resp1 0 (combine b1 r1) = inl R1
    /\ List.length R1 = 1000%nat
    /\ build_results 3 req3 resp3 0 (combine b3 r3) = inl R3
    /\ List.length R3 = 500%nat.
Proof.
  intros self n b1 b2 b3 Hlen Hcb H1 L1 O1 H2 H3 L3 O3.
  assert (HB : (1 <= batch_size self)%Z) by (vm_compute; discriminate).
  assert (Hsize : Z.to_nat (batch_size self) = 1000%nat) by reflexivity.
  assert (C0 : chunk self transactions 0 = b1).
  { rewrite (chunk_nat self transactions HB), Hsize. reflexivity. }
  assert (C1 : chunk self transactions 1 = b2).
  { rewrite (chunk_nat self transactions HB), Hsize.
    now rewrite Nat.mul_1_l. }
  assert (C2 : chunk self transactions 2 = b3).
  { rewrite (chunk_nat self transactions HB), Hsize.
    change (2 * 1000)%nat with 2000%nat. unfold b3.
    apply firstn_all2. rewrite length_skipn. lia. }
  assert (Lb1 : List.length b1 = 1000%nat)
    by (unfold b1; rewrite length_firstn; lia).
  assert (Lb3 : List.length b3 = 500%nat)
    by (unfold b3; rewrite length_skipn; lia).
  assert (Hr : py_range (len transactions) (batch_size self)
               = inl (map (index_of self) [0; 1; 2]%nat)).
  { unfold py_range, len. rewrite Hlen. reflexivity. }
  unfold process_all. rewrite Hr. unfold time_time. cbv beta iota.
  cbn [map fold_left]. unfold index_of.
  (* batch 1 *)
  destruct (step_success self transactions validate_audit_hash
              (len transactions) HB (mkAcc [] []) (tick w) 0 r1)
    as (R1 & w1 & E1 & B1 & K1 & T1 & S1 & X1).
  { rewrite C0. exact H1. }
  { rewrite C0, Lb1, <- L1, firstn_all. exact O1. }
  { apply Hcb. }
  rewrite E1. cbn [all_results failed_batches app]. rewrite C0 in B1, X1.
  (* batch 2 *)
  destruct (step_transport_error self transactions validate_audit_hash
              (len transactions) HB (mkAcc R1 []) w1 1 e)
    as (w2 & E2 & K2 & T2 & S2 & X2 & _).
  { rewrite S1, X1, length_app, C1. exact H2. }
  cbn [all_results failed_batches app] in E2. rewrite E2. rewrite C1 in X2.
  (* batch 3 *)
  destruct (step_success self transactions validate_audit_hash
              (len transactions) HB
              (mkAcc R1 [mkFailedBatch (id_of 1) (exc_str e)]) w2 2 r3)
    as (R3 & w3 & E3 & B3 & K3 & T3 & S3 & X3).
  { rewrite S2, S1, X2, X1, !length_app, C2.
    replace (List.length (sent (tick w)) + List.length [b1]
             + List.length [b2])%nat with (n + 2)%nat by (simpl; lia).
    exact H3. }
  { rewrite C2, Lb3, <- L3, firstn_all. exact O3. }
  { apply Hcb. }
  cbn [all_results failed_batches] in E3. rewrite E3. rewrite C2 in B3, X3.
  assert (LR1 : List.length R1 = 1000%nat).
  { apply build_results_length in B1. rewrite B1, length_combine. lia. }
  assert (LR3 : List.length R3 = 500%nat).
  { apply build_results_length in B3. rewrite B3, length_combine. lia. }
  do 2 eexists. exists R1, R3. do 4 eexists.
  split; [reflexivity|]. cbn [s_total_transactions s_successful s_failed
    s_failed_batches s_results all_results failed_batches sent tick].
  split; [rewrite X3, X2, X1; simpl; now rewrite <- !app_assoc|].
  unfold len. rewrite !length_app, Hlen, LR1, LR3. simpl List.length.
  repeat split; try reflexivity; try exact B1; try exact B3.
Qed.

(* ================================================================== *)
(** ** Binary64 facts behind the throughput *)

Section Binary64.

Local Open Scope Z_scope.

Lemma f_le_zero (f : spec_float) : f_le f_zero f = nonneg_float f.
Proof. destruct f as [s|s| |s m e]; try destruct s; reflexivity. Qed.

Lemma f_lt_zero_cases (f : spec_float) :
  f_lt f_zero f = true ->
  f = S754_infinity false \/ exists m e, f = S754_finite false m e.
Proof.
  destruct f as [s|s| |s m e]; try destruct s; try discriminate; eauto.
Qed.

Lemma shr_1_nonneg (r : shr_record) : 0 <= shr_m r -> 0 <= shr_m (shr_1 r).
Proof.
  destruct r as [m rb sb]. simpl.
  destruct m as [|p|p]; try destruct p; simpl; lia.
Qed.

Lemma iter_shr_1_nonneg (p : positive) :
  forall r, 0 <= shr_m r -> 0 <= shr_m (iter_pos shr_1 p r).
Proof.
  induction p as [p IH|p IH|]; intros r Hr; simpl.
  - apply IH, IH, shr_1_nonneg, Hr.
  - apply IH, IH, Hr.
  - apply shr_1_nonneg, Hr.
Qed.

Lemma shr_fexp_nonneg (prec emax m e : Z) (l : location) :
  0 <= m -> 0 <= shr_m (fst (shr_fexp prec emax m e l)).
Proof.
  intros Hm. unfold shr_fexp, shr.
  assert (H0 : 0 <= shr_m (shr_record_of_loc m l))
    by (destruct l as [|[]]; simpl; exact Hm).
  destruct (fexp prec emax (Zdigits2 m + e) - e); simpl; auto.
  now apply iter_shr_1_nonneg.
Qed.

Lemma round_nearest_even_nonneg (m : Z) (l : location) :
  0 <= m -> 0 <= round_nearest_even m l.
Proof.
  intros Hm. unfold round_nearest_even.
  destruct l as [|[]]; try destruct (Z.even m); lia.
Qed.

(** Rounding a non-negative mantissa with a positive sign never yields a
    NaN or a negative value. *)
Lemma binary_round_aux_nonneg (prec emax mx ex : Z) (lx : location) :
  0 <= mx -> nonneg_float (binary_round_aux prec emax false mx ex lx) = true.
Proof.
  intros Hm. unfold binary_round_aux.
  pose proof (shr_fexp_nonneg prec emax mx ex lx Hm) as H1.
  destruct (shr_fexp prec emax mx ex lx) as [mrs' e']. simpl in H1.
  pose proof (shr_fexp_nonneg prec emax
                (round_nearest_even (shr_m mrs') (loc_of_shr_record mrs')) e'
                loc_Exact (round_nearest_even_nonneg _ _ H1)) as H2.
  destruct (shr_fexp prec emax _ e' loc_Exact) as [mrs'' e'']. simpl in H2.
  destruct (shr_m mrs''); try lia; try reflexivity.
  destruct (e'' <=? emax - prec); reflexivity.
Qed.

Lemma float_of_int_nonneg (n : Z) : 0 <= n -> nonneg_float (float_of_int n) = true.
Proof.
  intros Hn. unfold float_of_int, binary_normalize.
  destruct n as [|p|p]; try lia; try reflexivity.
  unfold binary_round.
  destruct (shl_align p 0 _) as [mz ez].
  apply binary_round_aux_nonneg. lia.
Qed.

Lemma div_core_nonneg (prec emax : Z) (m1 m2 : positive) (e1 e2 : Z) :
  0 <= fst (fst (SFdiv_core_binary prec emax (Zpos m1) e1 (Zpos m2) e2)).
Proof.
  unfold SFdiv_core_binary.
  set (s := e1 - e2 - _).
  set (m' := match s with Z0 => Zpos m1 | Zpos _ => Z.shiftl (Zpos m1) s
                        | Zneg _ => 0 end).
  assert (Hm' : 0 <= m').
  { unfold m'. destruct s; try lia. apply Z.shiftl_nonneg. lia. }
  pose proof (Z_div_mod m' (Zpos m2) ltac:(lia)) as Hdm.
  destruct (Z.div_eucl m' (Zpos m2)) as [q r]. simpl.
  destruct Hdm as [Hq Hr]. nia.
Qed.

(** A non-negative value divided by a positive one is non-negative, unless
    both are infinite. *)
Lemma f_div_nonneg (x y : spec_float) :
  nonneg_float x = true -> f_lt f_zero y = true ->
  finite_float x = true ->
  nonneg_float (f_div x y) = true.
Proof.
  intros Hx Hy Hfin.
  destruct (f_lt_zero_cases y Hy) as [->|(my & ey & ->)];
    destruct x as [sx|sx| |sx mx ex]; try discriminate;
    try (destruct sx; try discriminate; reflexivity).
  destruct sx; try discriminate.
  unfold f_div, SFdiv.
  pose proof (div_core_nonneg 53 1024 mx my ex ey) as Hq.
  destruct (SFdiv_core_binary 53 1024 (Zpos mx) ex (Zpos my) ey) as [[mz ez] lz].
  simpl in Hq. simpl xorb. now apply binary_round_aux_nonneg.
Qed.

(** *** [float(n)] is finite for every length a list can have *)

Lemma digits2_size (p : positive) : digits2_pos p = Pos.size p.
Proof. induction p; simpl; congruence. Qed.

Lemma Zdigits2_log2 (m : Z) : 0 < m -> Zdigits2 m = Z.log2 m + 1.
Proof.
  destruct m as [|p|p]; try lia. intros _.
  destruct p; simpl; rewrite ?digits2_size; lia.
Qed.

Lemma Zdigits2_nonneg (m : Z) : 0 <= Zdigits2 m.
Proof. destruct m; simpl; lia. Qed.

Lemma Zdigits2_mono (a b : Z) : 0 <= a <= b -> Zdigits2 a <= Zdigits2 b.
Proof.
  intros [Ha Hab]. destruct (Z.eq_dec a 0) as [->|Hne].
  - apply Zdigits2_nonneg.
  - rewrite !Zdigits2_log2 by lia.
    pose proof (Z.log2_le_mono a b Hab). lia.
Qed.

Lemma Zdigits2_succ (m : Z) : 0 <= m -> Zdigits2 (m + 1) <= Zdigits2 m + 1.
Proof.
  intros Hm. destruct (Z.eq_dec m 0) as [->|Hne]; [simpl; lia|].
  rewrite !Zdigits2_log2 by lia.
  pose proof (Z.log2_succ_le m). unfold Z.succ in *. lia.
Qed.

Lemma Zdigits2_bound (m k : Z) : 0 < m < 2 ^ k -> 0 <= k -> Zdigits2 m <= k.
Proof.
  intros [H0 Hk] Hk0. rewrite Zdigits2_log2 by lia.
  apply (Z.log2_lt_pow2 m k H0) in Hk. lia.
Qed.

Lemma shr_1_digits (r : shr_record) :
  0 <= shr_m r ->
  Zdigits2 (shr_m (shr_1 r)) = Z.max 0 (Zdigits2 (shr_m r) - 1).
Proof.
  destruct r as [m rb sb].
  destruct m as [|p|p]; try destruct p;
    cbn [shr_1 shr_m Zdigits2 digits2_pos]; lia.
Qed.

Lemma iter_shr_1_digits (p : positive) :
  forall r, 0 <= shr_m r ->
    Zdigits2 (shr_m (iter_pos shr_1 p r))
    = Z.max 0 (Zdigits2 (shr_m r) - Zpos p).
Proof.
  induction p as [p IH|p IH|]; intros r Hr; simpl.
  - rewrite IH by (apply iter_shr_1_nonneg, shr_1_nonneg, Hr).
    rewrite IH by (apply shr_1_nonneg, Hr).
    rewrite shr_1_digits by exact Hr. lia.
  - rewrite IH by (apply iter_shr_1_nonneg, Hr).
    rewrite IH by exact Hr. lia.
  - now apply shr_1_digits.
Qed.

Lemma shr_fexp_exponent (prec emax m e : Z) (l : location) :
  snd (shr_fexp prec emax m e l) = Z.max e (fexp prec emax (Zdigits2 m + e)).
Proof.
  unfold shr_fexp, shr.
  destruct (fexp prec emax (Zdigits2 m + e) - e) eqn:E; simpl; lia.
Qed.

Lemma shr_fexp_digits (prec emax m e : Z) (l : location) :
  0 <= m ->
  Zdigits2 (shr_m (fst (shr_fexp prec emax m e l)))
    + snd (shr_fexp prec emax m e l)
  <= Z.max (Zdigits2 m + e) (snd (shr_fexp prec emax m e l)).
Proof.
  intros Hm. unfold shr_fexp, shr.
  assert (H0 : shr_m (shr_record_of_loc m l) = m)
    by (destruct l as [|[]]; reflexivity).
  destruct (fexp prec emax (Zdigits2 m + e) - e) eqn:E; simpl;
    rewrite ?H0; try lia.
  rewrite iter_shr_1_digits by (rewrite H0; exact Hm).
  rewrite H0. lia.
Qed.

Lemma digits2_iter_xO (m d : positive) :
  digits2_pos (Pos.iter xO m d) = (digits2_pos m + d)%positive.
Proof.
  induction d as [|d IH] using Pos.peano_ind.
  - simpl. lia.
  - rewrite Pos.iter_succ. simpl. rewrite IH. lia.
Qed.

Lemma shl_align_digits (mx : positive) (ex ex' : Z) :
  Zpos (digits2_pos (fst (shl_align mx ex ex'))) + snd (shl_align mx ex ex')
  = Zpos (digits2_pos mx) + ex
  /\ snd (shl_align mx ex ex') <= ex.
Proof.
  unfold shl_align. destruct (ex' - ex) eqn:E; cbn [fst snd]; try lia.
  rewrite digits2_iter_xO. lia.
Qed.

Lemma round_nearest_even_le (m : Z) (l : location) :
  round_nearest_even m l <= m + 1.
Proof.
  unfold round_nearest_even. destruct l as [|[]]; try destruct (Z.even m); lia.
Qed.

Lemma float_of_int_finite (n : Z) :
  0 <= n <= sys_maxsize -> finite_float (float_of_int n) = true.
Proof.
  intros [H0 Hmax]. unfold float_of_int, binary_normalize.
  destruct n as [|p|p]; try lia; try reflexivity.
  assert (HD : Zpos (digits2_pos p) <= 63).
  { change (Zpos (digits2_pos p)) with (Zdigits2 (Zpos p)).
    apply Zdigits2_bound; unfold sys_maxsize in Hmax; lia. }
  unfold binary_round.
  pose proof (shl_align_digits p 0 (fexp 53 1024 (Zpos (digits2_pos p) + 0)))
    as [Hd Hez].
  destruct (shl_align p 0 _) as [mz ez]. simpl in Hd, Hez.
  unfold binary_round_aux.
  pose proof (shr_fexp_exponent 53 1024 (Zpos mz) ez loc_Exact) as He'.
  pose proof (shr_fexp_digits 53 1024 (Zpos mz) ez loc_Exact ltac:(lia)) as Hd'.
  pose proof (shr_fexp_nonneg 53 1024 (Zpos mz) ez loc_Exact ltac:(lia)) as Hn'.
  destruct (shr_fexp 53 1024 (Zpos mz) ez loc_Exact) as [mrs' e'].
  simpl in He', Hd', Hn'.
  set (m2 := round_nearest_even (shr_m mrs') (loc_of_shr_record mrs')).
  assert (Hm2 : 0 <= m2) by (apply round_nearest_even_nonneg, Hn').
  assert (Hm2d : Zdigits2 m2 <= Zdigits2 (shr_m mrs') + 1).
  { etransitivity; [|apply Zdigits2_succ, Hn'].
    apply Zdigits2_mono. split; [exact Hm2 | apply round_nearest_even_le]. }
  pose proof (shr_fexp_exponent 53 1024 m2 e' loc_Exact) as He''.
  pose proof (shr_fexp_nonneg 53 1024 m2 e' loc_Exact Hm2) as Hn''.
  destruct (shr_fexp 53 1024 m2 e' loc_Exact) as [mrs'' e''].
  simpl in He'', Hn''.
  unfold fexp, emin in *. simpl Zdigits2 in *.
  destruct (shr_m mrs''); try lia; try reflexivity.
  destruct (e'' <=? 1024 - 53) eqn:El; [reflexivity|].
  apply Z.leb_gt in El. lia.
Qed.

End Binary64.

(* ================================================================== *)
(** ** Throughput *)

Lemma throughput_of_spec (count : Z) (elapsed : spec_float) :
  (0 <= count <= sys_maxsize)%Z ->
  num_nonneg (throughput_of count elapsed) = true
  /\ (f_lt f_zero elapsed = true ->
      throughput_of count elapsed
      = NumFloat (f_div (float_of_int count) elapsed))
  /\ (f_lt f_zero elapsed = false -> throughput_of count elapsed = NumInt 0)
  /\ (forall s, elapsed = S754_zero s -> throughput_of count elapsed = NumInt 0).
Proof.
  intros Hc. unfold throughput_of.
  split; [|split; [|split]].
  - destruct (f_lt f_zero elapsed) eqn:E; [|reflexivity].
    simpl. rewrite f_le_zero. apply f_div_nonneg; auto.
    + apply float_of_int_nonneg. lia.
    + now apply float_of_int_finite.
  - now intros ->.
  - now intros ->.
  - intros s ->. reflexivity.
Qed.

Lemma process_batch_throughput (transactions : list Dict) (id : Z) (w : World)
    (br : BatchResult) :
  fst (process_batch transactions id w) = inl br ->
  throughput br = throughput_of (len transactions) (duration_seconds br).
Proof.
  rewrite process_batch_eq. cbv zeta.
  destruct (server w (List.length (sent w)) transactions) as [r|e];
    [|discriminate].
  simpl. intros H. apply handle_response_result in H.
  destruct H as (_ & _ & _ & _ & _ & _ & _ & _ & _ & Hd & Ht).
  now rewrite Ht, Hd.
Qed.

Lemma process_all_throughput (self : BatchProcessor) (transactions : list Dict)
    (validate_audit_hash : bool) (w : World) (summary : Summary) :
  fst (process_all self transactions validate_audit_hash w) = inl summary ->
  s_throughput summary
  = throughput_of (len transactions) (s_total_time summary).
Proof.
  unfold process_all, time_time.
  destruct (py_range (len transactions) (batch_size self)) as [indices|e];
    [|discriminate].
  destruct (fold_left _ indices _) as [acc w']. simpl.
  intros H. inversion H. reflexivity.
Qed.

(** C7. The throughput reported for a batch and for a whole run is derived
    from the transaction count and the elapsed time: it is never negative,
    it is the count divided by the elapsed time when that time is strictly
    positive, and it is exactly 0 when the elapsed time is 0 (and whenever
    it is not strictly positive).  The count is the length of a list, so at
    most [sys.maxsize]. *)
Theorem throughput_is_derived_and_nonnegative :
  (forall (transactions : list Dict) (id : Z) (w : World) (br : BatchResult),
      fst (process_batch transactions id w) = inl br ->
      (len transactions <= sys_maxsize)%Z ->
      let count := len transactions in
      let elapsed := duration_seconds br in
      num_nonneg (throughput br) = true
      /\ (f_lt f_zero elapsed = true ->
          throughput br = NumFloat (f_div (float_of_int count) elapsed))
      /\ (f_lt f_zero elapsed = false -> throughput br = NumInt 0)
      /\ (forall s, elapsed = S754_zero s -> throughput br = NumInt 0))
  /\ (forall (self : BatchProcessor) (transactions : list Dict)
             (validate_audit_hash : bool) (w : World) (summary : Summary),
         fst (process_all self transactions validate_audit_hash w) = inl summary ->
         (len transactions <= sys_maxsize)%Z ->
         let count := len transactions in
         let elapsed := s_total_time summary in
         num_nonneg (s_throughput summary) = true
         /\ (f_lt f_zero elapsed = true ->
             s_throughput summary = NumFloat (f_div (float_of_int count) elapsed))
         /\ (f_lt f_zero elapsed = false -> s_throughput summary = NumInt 0)
         /\ (forall s, elapsed = S754_zero s -> s_throughput summary = NumInt 0)).
Proof.
  split.
  - intros transactions id w br Hbr Hmax count elapsed.
    rewrite (process_batch_throughput _ _ _ _ Hbr).
    apply throughput_of_spec. unfold len in *. lia.
  - intros self transactions validate_audit_hash w summary Hs Hmax count elapsed.
    rewrite (process_all_throughput _ _ _ _ _ Hs).
    apply throughput_of_spec. unfold len in *. lia.
Qed.

Lemma throughput_is_derived_and_nonnegative_witness :
  (len SampleRun.five <= sys_maxsize)%Z
  /\ exists br,
       fst (process_batch SampleRun.five 1
                          (SampleRun.world SampleRun.echo_server)) = inl br
       /\ duration_seconds br = float_of_int 3
       /\ num_nonneg (throughput br) = true
       /\ throughput br = NumFloat (f_div (float_of_int 5) (float_of_int 3)).
Proof.
  assert (Hmax : (len SampleRun.five <= sys_maxsize)%Z)
    by (vm_compute; discriminate).
  split; [exact Hmax|].
  eexists. split; [vm_compute; reflexivity|].
  split; [vm_compute; reflexivity|].
  match goal with
  | |- num_nonneg (throughput ?b) = true /\ _ =>
      pose proof (proj1 throughput_is_derived_and_nonnegative
                    SampleRun.five 1%Z (SampleRun.world SampleRun.echo_server)
                    b ltac:(vm_compute; reflexivity) Hmax) as H
  end.
  cbv zeta in H. destruct H as (Hn & Hpos & _).
  split; [exact Hn|]. apply Hpos. vm_compute. reflexivity.
Defined.

(* ================================================================== *)
(** ** When [process_batch] raises *)




(* ================================================================== *)
(** ** A response shorter than the batch *)

Lemma id_of_inj (j k : nat) : id_of j = id_of k -> j = k.
Proof. unfold id_of. lia. Qed.

(** C10. A batch of [K] transactions answered with status 200 and an array
    of [M < K] well-formed results: [process_batch] returns a [BatchResult]
    with exactly [M] results, built from the first [M] transactions,
    [successful = M] and [failed = 0], so the last [K - M] transactions are
    dropped without a trace in the batch; and in a run of [process_all]
    whose callback does not raise for that batch, its id is not among
    [failed_batches]. *)
Theorem short_response_is_silently_truncated :
  (forall (transactions : list Dict) (id : Z) (w : World) (items : list PyVal),
      server w (List.length (sent w)) transactions
      = Responded (mkResponse 200 (BodyJson (PList items))) ->
      (List.length items < List.length transactions)%nat ->
      forallb result_ok items = true ->
      exists br req resp,
        fst (process_batch transactions id w) = inl br
        /\ List.length (results br) = List.length items
        /\ build_results id req resp 0
             (combine (firstn (List.length items) transactions) items)
           = inl (results br)
        /\ successful br = len items
        /\ failed br = 0%Z
        /\ total_transactions br = len transactions)
  /\ (forall (self : BatchProcessor) (transactions : list Dict)
             (validate_audit_hash : bool) (w : World) (k : nat)
             (items : list PyVal),
         (1 <= batch_size self)%Z ->
         (k < window_count self transactions)%nat ->
         server w (List.length (sent w) + k) (chunk self transactions k)
         = Responded (mkResponse 200 (BodyJson (PList items))) ->
         (List.length items < List.length (chunk self transactions k))%nat ->
         forallb result_ok items = true ->
         callback_raises self (progress_call self transactions k) = false ->
         exists summary w',
           process_all self transactions validate_audit_hash w
           = (inl summary, w')
           /\ ~ In (id_of k) (map fb_batch_id (s_failed_batches summary))).
Proof.
  split.
  - intros transactions id w items Hs Hlt Hok.
    rewrite process_batch_eq. cbv zeta. rewrite Hs. cbn [fst].
    set (req := utc_iso _). set (resp := utc_iso _). set (d := f_sub _ _).
    destruct (handle_response transactions id req resp d
                (mkResponse 200 (BodyJson (PList items)))) as [br|e] eqn:Eh.
    + pose proof (handle_response_result _ _ _ _ _ _ _ Eh)
        as (v & its & Hb & Hi & Hr & _ & Ht & Hsu & Hf & _).
      simpl in Hb. inversion Hb; subst v. simpl in Hi. inversion Hi; subst its.
      pose proof (build_results_length _ _ _ _ _ _ Hr) as Hl.
      rewrite length_combine, Nat.min_r in Hl by lia.
      exists br, req, resp. split; [reflexivity|]. split; [exact Hl|].
      split; [|split; [|split]]; auto.
      * rewrite <- Hr. f_equal. symmetry. apply combine_firstn_r.
      * rewrite Hsu. unfold len. now rewrite Hl.
    + pose proof (handle_response_returns transactions id req resp d
                    (mkResponse 200 (BodyJson (PList items)))) as Hret.
      rewrite Eh in Hret. unfold accepted, body_ok in Hret. simpl in Hret.
      rewrite firstn_all2 in Hret by lia. rewrite Hok in Hret. discriminate.
  - intros self transactions validate_audit_hash w k items HB Hk Hs Hlt Hok Hcb.
    destruct (process_all_spec self transactions validate_audit_hash HB w)
      as (summary & w' & E & _ & _ & F & _).
    exists summary, w'. split; [exact E|].
    rewrite F. intros Hin. apply in_map_iff in Hin.
    destruct Hin as (j & Hj & Hfail). apply id_of_inj in Hj. subst j.
    apply filter_In in Hfail. destruct Hfail as [_ Hfail].
    unfold batch_fails, batch_accepted in Hfail. rewrite Hs, Hcb in Hfail.
    unfold accepted, body_ok in Hfail. simpl in Hfail.
    rewrite firstn_all2 in Hfail by lia. rewrite Hok in Hfail. discriminate.
Qed.

Lemma short_response_is_silently_truncated_witness :
  (exists br,
      fst (process_batch [Sample.txn 1; Sample.txn 2] 1
             (SampleRun.world SampleRun.terse_server)) = inl br
      /\ List.length (results br) = 1%nat
      /\ failed br = 0%Z)
  /\ (exists summary w',
         process_all (SampleRun.processor 2) SampleRun.five false
                     (SampleRun.world SampleRun.terse_server)
         = (inl summary, w')
         /\ ~ In 1%Z (map fb_batch_id (s_failed_batches summary))).
Proof.
  split.
  - destruct (proj1 short_response_is_silently_truncated
                [Sample.txn 1; Sample.txn 2] 1%Z
                (SampleRun.world SampleRun.terse_server)
                [Sample.result_json "00"] eq_refl
                ltac:(simpl; lia) eq_refl)
      as (br & req & resp & E & L & _ & _ & F & _).
    exists br. auto.
  - exact (proj2 short_response_is_silently_truncated
             (SampleRun.processor 2) SampleRun.five false
             (SampleRun.world SampleRun.terse_server) 0%nat
             [Sample.result_json "00"]
             ltac:(vm_compute; discriminate)
             ltac:(vm_compute; lia)
             eq_refl
             ltac:(vm_compute; lia)
             eq_refl eq_refl).
Defined.

Lemma second_batch_lost_of_three_witness :
  List.length SampleBig.transactions = 2500%nat
  /\ exists summary w',
       process_all (BatchProcessor_init "http://127.0.0.1:8000" 1000 3 60
                      (Some SampleRun.quiet))
                   SampleBig.transactions false SampleBig.world
       = (inl summary, w')
       /\ s_successful summary = 1500%Z
       /\ s_failed summary = 1000%Z
       /\ s_failed_batches summary = [mkFailedBatch 2 "Connection refused"]
       /\ List.length (s_results summary) = 1500%nat.
Proof.
  assert (Hlen : List.length SampleBig.transactions = 2500%nat)
    by (vm_compute; reflexivity).
  split; [exact Hlen|].
  destruct (second_batch_lost_of_three "http://127.0.0.1:8000" 3 60
              (Some SampleRun.quiet) SampleBig.transactions false
              SampleBig.world
              (SampleBig.answers (firstn 1000 SampleBig.transactions))
              (SampleBig.answers (skipn 2000 SampleBig.transactions))
              SampleBig.lost
              Hlen
              (fun call => eq_refl)
              ltac:(vm_compute; reflexivity)
              ltac:(vm_compute; reflexivity)
              ltac:(vm_compute; reflexivity)
              ltac:(vm_compute; reflexivity)
              ltac:(vm_compute; reflexivity)
              ltac:(vm_compute; reflexivity)
              ltac:(vm_compute; reflexivity))
    as (summary & w' & R1 & R3 & q1 & p1 & q3 & p3
        & E & _ & _ & Hs & Hf & Hfb & _ & Hl & _).
  exists summary, w'. repeat split; auto.
Defined.

(* ================================================================== *)
(** * Further properties of the client *)

(** ** What a run leaves behind, window by window *)

Lemma make_result_error (id id' : Z) (a b a' b' : string) (i i' : Z)
    (txn txn' : Dict) (r : PyVal) (e : PyExc) :
  make_result id a b i txn r = inr e ->
  make_result id' a' b' i' txn' r = inr e.
Proof.
  unfold make_result.
  destruct (py_getitem r "audit_hash"); simpl; [|auto].
  destruct (py_getitem r "exception_flag"); simpl; [|auto].
  destruct (py_getitem r "reason_code"); simpl; [|auto].
  destruct (py_getitem r "confidence"); simpl; [|auto].
  destruct (py_get r "explainability_features" (PDict [])); simpl; [|auto].
  discriminate.
Qed.

Lemma build_results_error (id : Z) (a b a' b' : string)
    (pairs : list (Dict * PyVal)) :
  forall (i : Z) (e : PyExc),
    build_results id a b i pairs = inr e ->
    build_results id a' b' i pairs = inr e.
Proof.
  induction pairs as [|[txn r] rest IH]; intros i e; cbn [build_results].
  - discriminate.
  - destruct (make_result id a b i txn r) as [x|ex] eqn:Em.
    + assert (Hx : returns (make_result id a' b' i txn r) = true).
      { rewrite make_result_returns, <- (make_result_returns id a b i txn r), Em.
        reflexivity. }
      destruct (make_result id a' b' i txn r) as [x'|ex']; [|discriminate].
      cbn [ebind].
      destruct (build_results id a b (i + 1) rest) as [xs|er] eqn:Er;
        cbn [ebind ret]; [discriminate|].
      intros H. inversion H; subst er. now rewrite (IH _ _ Er).
    + cbn [ebind]. intros H. inversion H; subst ex.
      now rewrite (make_result_error id id a b a' b' i i txn txn r e Em).
Qed.

(** The exception [process_batch] raises on a response does not depend on
    when the response came. *)
Lemma handle_response_error (batch : list Dict) (id : Z) (a b a' b' : string)
    (d d' : spec_float) (r : Response) (e : PyExc) :
  handle_response batch id a b d r = inr e ->
  handle_response batch id a' b' d' r = inr e.
Proof.
  unfold handle_response.
  destruct (negb (status_code r =? 200)%Z); [auto|].
  destruct (response_json r) as [v|ev]; cbn [ebind]; [|auto].
  destruct (py_iter v) as [items|ei]; cbn [ebind]; [|auto].
  destruct (build_results id a b 0 (combine batch items)) as [rs|eb] eqn:Eb;
    cbn [ebind ret]; [discriminate|].
  intros H. inversion H; subst eb.
  now rewrite (build_results_error id a b a' b' _ _ _ Eb).
Qed.

Lemma response_error_spec (batch : list Dict) (id : Z) (a b : string)
    (d : spec_float) (r : Response) :
  match response_error batch id r with
  | Some e => handle_response batch id a b d r = inr e
  | None => accepted batch (Responded r) = true
  end.
Proof.
  unfold response_error.
  destruct (handle_response batch id EmptyString EmptyString f_zero r)
    as [br|e] eqn:E.
  - rewrite <- (handle_response_returns batch id EmptyString EmptyString f_zero r).
    now rewrite E.
  - eapply handle_response_error; eauto.
Qed.

Lemma response_error_accepted (batch : list Dict) (id : Z) (r : Response) :
  accepted batch (Responded r)
  = match response_error batch id r with Some _ => false | None => true end.
Proof.
  unfold response_error.
  rewrite <- (handle_response_returns batch id EmptyString EmptyString f_zero r).
  destruct (handle_response batch id EmptyString EmptyString f_zero r);
    reflexivity.
Qed.

(** *** Honest answers pass the validation of [process_all] *)

Lemma make_result_fields (id : Z) (a b : string) (i : Z) (txn : Dict)
    (item : PyVal) (r : TransactionResult) :
  make_result id a b i txn item = inl r ->
  transaction_id r
  = dict_get_default "transaction_id"
      (PStr ("txn_" ++ str_of_Z id ++ "_" ++ str_of_Z i)) txn
  /\ py_getitem item "audit_hash" = inl (audit_hash r)
  /\ py_getitem item "exception_flag" = inl (exception_flag r)
  /\ py_getitem item "reason_code" = inl (reason_code r)
  /\ py_getitem item "confidence" = inl (confidence r)
  /\ py_get item "explainability_features" (PDict [])
     = inl (explainability_features r)
  /\ request_timestamp r = a
  /\ response_timestamp r = b.
Proof.
  unfold make_result.
  destruct (py_getitem item "audit_hash"); cbn [ebind]; [|discriminate].
  destruct (py_getitem item "exception_flag"); cbn [ebind]; [|discriminate].
  destruct (py_getitem item "reason_code"); cbn [ebind]; [|discriminate].
  destruct (py_getitem item "confidence"); cbn [ebind]; [|discriminate].
  destruct (py_get item "explainability_features" (PDict []));
    cbn [ebind ret]; [|discriminate].
  intros H. inversion H. simpl. repeat split; reflexivity.
Qed.

Lemma build_results_nth_inv (id : Z) (a b : string)
    (pairs : list (Dict * PyVal)) (i : Z) (rs : list TransactionResult) :
  build_results id a b i pairs = inl rs ->
  forall (n : nat) (r : TransactionResult),
    nth_error rs n = Some r ->
    exists txn item,
      nth_error pairs n = Some (txn, item)
      /\ make_result id a b (i + Z.of_nat n) txn item = inl r.
Proof.
  intros Hb n r Hn.
  pose proof (build_results_length _ _ _ _ _ _ Hb) as Hlen.
  assert (Hlt : (n < List.length pairs)%nat)
    by (rewrite <- Hlen; apply nth_error_Some; congruence).
  destruct (nth_error pairs n) as [[txn item]|] eqn:Ep.
  2:{ apply nth_error_None in Ep. lia. }
  destruct (build_results_nth _ _ _ _ _ _ Hb n txn item Ep) as (r' & Hn' & Hm).
  rewrite Hn in Hn'. inversion Hn'; subst r'. eauto.
Qed.

Lemma nth_error_combine {A B} (l : list A) (l' : list B) (n : nat) (x : A) (y : B) :
  nth_error (combine l l') n = Some (x, y) ->
  nth_error l n = Some x /\ nth_error l' n = Some y.
Proof.
  revert l' n. induction l as [|t ts IH]; intros [|it its] [|n] Ep;
    simpl in *; try discriminate.
  - inversion Ep. auto.
  - now apply IH.
Qed.

Lemma dict_getitem_get (k : string) (d : Dict) (v : PyVal) :
  dict_getitem k d = inl v -> dict_lookup k d = Some v /\ dict_get k d = v.
Proof.
  unfold dict_getitem, dict_get.
  destruct (dict_lookup k d); [|discriminate].
  intros H. inversion H. auto.
Qed.

Lemma result_dict_fields (ah ef rc cf : PyVal) :
  let rd := [("audit_hash", ah); ("exception_flag", ef);
             ("reason_code", rc); ("confidence", cf)] in
  dict_lookup "audit_hash" rd = Some ah
  /\ dict_get "exception_flag" rd = ef
  /\ dict_get "reason_code" rd = rc
  /\ dict_get "confidence" rd = cf.
Proof. repeat split; reflexivity. Qed.

(** The result built from an honest item validates against its
    transaction. *)
Lemma honest_result_validates (id : Z) (a b : string) (i : Z) (txn : Dict)
    (item : PyVal) (r : TransactionResult) :
  make_result id a b i txn item = inl r ->
  honest txn item ->
  validate_result
    [("audit_hash", audit_hash r); ("exception_flag", exception_flag r);
     ("reason_code", reason_code r); ("confidence", confidence r)] txn
  = inl true.
Proof.
  intros Hm (d & -> & Hh).
  apply make_result_fields in Hm.
  destruct Hm as (_ & Hah & Hef & Hrc & Hcf & _).
  cbn [py_getitem] in Hah, Hef, Hrc, Hcf.
  apply dict_getitem_get in Hah, Hef, Hrc, Hcf.
  destruct Hah as [Hah _]. destruct Hef as [_ Hef].
  destruct Hrc as [_ Hrc]. destruct Hcf as [_ Hcf].
  assert (Hah' : audit_hash r = PStr (compute_audit_hash (expected_data d txn)))
    by congruence.
  destruct (result_dict_fields (audit_hash r) (exception_flag r)
              (reason_code r) (confidence r)) as (L1 & L2 & L3 & L4).
  rewrite validate_result_spec. unfold expected_data at 1.
  rewrite L1, L2, L3, L4, <- Hef, <- Hrc, <- Hcf.
  fold (expected_data d txn). rewrite Hah'. simpl str_eq_val.
  now rewrite String.eqb_refl.
Qed.

Lemma invalid_hashes_none (batch : list Dict) (rs : list TransactionResult) :
  forall j : nat,
    (forall n r, nth_error rs n = Some r ->
                 exists txn,
                   nth_error batch (j + n) = Some txn
                   /\ validate_result
                        [("audit_hash", audit_hash r);
                         ("exception_flag", exception_flag r);
                         ("reason_code", reason_code r);
                         ("confidence", confidence r)] txn = inl true) ->
    invalid_hashes batch j rs = inl [].
Proof.
  induction rs as [|r rest IH]; intros j H; cbn [invalid_hashes].
  - reflexivity.
  - destruct (H 0%nat r eq_refl) as (txn & Ht & Hv).
    rewrite Nat.add_0_r in Ht. rewrite Ht. cbn [ebind ret].
    rewrite Hv. cbn [ebind].
    rewrite (IH (S j)).
    + reflexivity.
    + intros n r' Hn. destruct (H (S n) r' Hn) as (txn' & Ht' & Hv').
      exists txn'. split; [|exact Hv'].
      now replace (S j + n)%nat with (j + S n)%nat by lia.
Qed.

Lemma validate_batch_honest (id : Z) (a b : string) (batch : list Dict)
    (out : PostOutcome) (rs : list TransactionResult) (w : World) :
  build_results id a b 0 (combine batch (items_of out)) = inl rs ->
  honest_answer batch out ->
  validate_batch id batch rs w = (inl tt, w).
Proof.
  intros Hb Hh. unfold validate_batch.
  rewrite (invalid_hashes_none batch rs 0); [reflexivity|].
  intros n r Hn.
  destruct (build_results_nth_inv _ _ _ _ _ _ Hb n r Hn)
    as (txn & item & Hp & Hm).
  apply nth_error_combine in Hp. destruct Hp as [Ht Hi].
  exists txn. split; [exact Ht|].
  eapply honest_result_validates; eauto.
Qed.

Section FullStep.

Variable self : BatchProcessor.
Variable transactions : list Dict.
Variable validate_audit_hash : bool.
Variable total : Z.

Hypothesis size_positive : (1 <= batch_size self)%Z.

(** One turn, with everything it leaves: results, failure entry, printed
    line. *)
Lemma step_full (acc : Acc) (w : World) (k : nat) :
  let c := chunk self transactions k in
  let out := server w (List.length (sent w)) c in
  let call := ((Z.of_nat k * batch_size self + len c)%Z, total) in
  let failure :=
    match out with
    | TransportError e => Some e
    | Responded r =>
        match response_error c (id_of k) r with
        | Some e => Some e
        | None =>
            match progress_callback self with
            | Some callback => callback (fst call) (snd call)
            | None => None
            end
        end
    end in
  let entries :=
    match failure with
    | Some e => [mkFailedBatch (id_of k) (exc_str e)]
    | None => []
    end in
  exists acc' w' rs,
    process_all_step self transactions validate_audit_hash total (acc, w)
                     (Z.of_nat k * batch_size self)%Z = (acc', w')
    /\ all_results acc' = (all_results acc ++ rs)%list
    /\ (if accepted c out
        then exists req resp,
            build_results (id_of k) req resp 0 (combine c (items_of out)) = inl rs
        else rs = [])
    /\ failed_batches acc' = (failed_batches acc ++ entries)%list
    /\ (validate_audit_hash = false \/ honest_answer c out ->
        stdout w' = (stdout w ++ map error_line entries)%list).
Proof.
  intros c out call failure entries. unfold process_all_step.
  rewrite (batch_id_of_index self size_positive).
  fold (chunk self transactions k). fold c.
  rewrite process_batch_eq. cbv zeta.
  unfold entries, failure, out. clear entries failure out.
  destruct (server w (List.length (sent w)) c) as [r|e] eqn:Es.
  - set (a := utc_iso (clock w (1 + ticks w)%nat)).
    set (b := utc_iso (clock w (2 + ticks w)%nat)).
    set (d := f_sub _ _).
    pose proof (response_error_spec c (id_of k) a b d r) as Hre.
    rewrite (response_error_accepted c (id_of k) r).
    destruct (response_error c (id_of k) r) as [e|] eqn:Ee.
    + rewrite Hre.
      do 2 eexists. exists []. split; [reflexivity|]. simpl.
      rewrite app_nil_r. repeat split; auto.
    + destruct (handle_response c (id_of k) a b d r) as [br|e] eqn:Eh.
      2:{ rewrite <- (handle_response_returns c (id_of k) a b d r), Eh in Hre.
          discriminate. }
      pose proof (handle_response_results_length _ _ _ _ _ _ _ Eh) as Hlen.
      pose proof (handle_response_result _ _ _ _ _ _ _ Eh)
        as (v & items & Hb & Hi & Hr & _).
      assert (Hitems : items_of (Responded r) = items).
      { unfold items_of. now rewrite Hb, Hi. }
      set (w1 := mkWorld _ _ _ _ _ _).
      assert (Hv : exists w2,
                 (if validate_audit_hash
                  then validate_batch (id_of k) c (results br) w1
                  else (ret tt, w1)) = (inl tt, w2)
                 /\ same_but_stdout w1 w2
                 /\ (validate_audit_hash = false
                     \/ honest_answer c (Responded r) ->
                     stdout w2 = stdout w)).
      { destruct validate_audit_hash.
        - destruct (validate_batch_quiet (id_of k) c (results br) w1 Hlen)
            as (w2 & E2 & S2).
          exists w2. repeat split; try apply S2; auto.
          intros [Hoff|Hh]; [discriminate|].
          rewrite <- Hitems in Hr.
          rewrite (validate_batch_honest _ _ _ _ _ _ w1 Hr Hh) in E2.
          inversion E2. reflexivity.
        - exists w1. split; [reflexivity|].
          split; [apply same_but_stdout_refl | reflexivity]. }
      destruct Hv as (w2 & Ev & _ & Hout). rewrite Ev, Hitems.
      destruct (progress_callback self) as [callback|].
      * unfold call. cbn [fst snd].
        destruct (callback (Z.of_nat k * batch_size self + len c)%Z total) as [e|];
          do 2 eexists; exists (results br); (split; [reflexivity|]);
          simpl; rewrite ?app_nil_r;
          (split; [reflexivity|]); (split; [eauto|]);
          (split; [reflexivity|]); intros Hoff; now rewrite (Hout Hoff).
      * exists (mkAcc (all_results acc ++ results br)%list (failed_batches acc)),
          w2, (results br). split; [reflexivity|].
        simpl. rewrite ?app_nil_r.
        split; [reflexivity|]. split; [eauto|].
        split; [reflexivity|]. intros Hoff. now rewrite (Hout Hoff).
  - do 2 eexists. exists []. split; [reflexivity|]. simpl.
    rewrite app_nil_r. repeat split; auto.
Qed.

End FullStep.

Section FullLoop.

Variable self : BatchProcessor.
Variable transactions : list Dict.
Variable validate_audit_hash : bool.

Hypothesis size_positive : (1 <= batch_size self)%Z.

Lemma loop_full (w0 : World) (n : nat) :
  forall (s : nat) (acc : Acc) (w : World),
    server w = server w0 ->
    List.length (sent w) = (List.length (sent w0) + s)%nat ->
    exists acc' w' rss,
      fold_left (process_all_step self transactions validate_audit_hash
                                  (len transactions))
                (map (index_of self) (seq s n)) (acc, w) = (acc', w')
      /\ all_results acc' = (all_results acc ++ List.concat rss)%list
      /\ Forall2 (window_results self transactions w0) (seq s n) rss
      /\ failed_batches acc'
         = (failed_batches acc
              ++ flat_map (failure_entries self transactions w0) (seq s n))%list
      /\ (validate_audit_hash = false
          \/ (forall k, In k (seq s n) ->
                        honest_answer (chunk self transactions k)
                                      (answer self transactions w0 k)) ->
          stdout w'
          = (stdout w
               ++ map error_line
                    (flat_map (failure_entries self transactions w0) (seq s n)))%list).
Proof.
  induction n as [|n IH]; intros s acc w Hsrv Hlen.
  - exists acc, w, []. simpl. rewrite !app_nil_r. repeat split; auto.
  - cbn [seq map fold_left flat_map].
    destruct (step_spec self transactions validate_audit_hash (len transactions)
                size_positive acc w s)
      as (acc1 & w1 & rs0 & E1 & S1 & T1 & _).
    destruct (step_full self transactions validate_audit_hash (len transactions)
                size_positive acc w s)
      as (acc1' & w1' & rs1 & E1' & R1 & W1 & F1 & O1).
    rewrite E1 in E1'. inversion E1'; subst acc1' w1'. clear E1'.
    change (index_of self s) with (Z.of_nat s * batch_size self)%Z.
    rewrite E1.
    destruct (IH (S s) acc1 w1) as (acc2 & w2 & rss & E2 & R2 & W2 & F2 & O2).
    { now rewrite S1. }
    { rewrite T1, length_app, Hlen. simpl. lia. }
    rewrite Hsrv, Hlen in W1, F1, O1.
    fold (answer self transactions w0 s) in W1, F1, O1.
    fold (batch_accepted self transactions w0 s) in W1.
    fold (progress_call self transactions s) in F1, O1.
    fold (window_failure self transactions w0 s) in F1, O1.
    fold (failure_entries self transactions w0 s) in F1, O1.
    exists acc2, w2, (rs1 :: rss). split; [exact E2|].
    split; [|split; [|split]].
    + rewrite R2, R1. simpl. now rewrite app_assoc.
    + constructor; [exact W1 | exact W2].
    + rewrite F2, F1. now rewrite app_assoc.
    + intros Hoff. rewrite O2, O1, map_app; [now rewrite app_assoc | |].
      * destruct Hoff as [Hoff|Hh]; [now left | right].
        apply Hh. now left.
      * destruct Hoff as [Hoff|Hh]; [now left | right].
        intros j Hj. apply Hh. now right.
Qed.

(** [process_all] in full: the results are those of the windows in order,
    [failed_batches] has one entry per failing window, and with the hash
    validation off the printed lines are the error lines of those
    entries. *)
Lemma process_all_full (w : World) :
  exists summary w' rss,
    process_all self transactions validate_audit_hash w = (inl summary, w')
    /\ s_results summary = List.concat rss
    /\ Forall2 (window_results self transactions w)
               (seq 0 (window_count self transactions)) rss
    /\ s_failed_batches summary
       = flat_map (failure_entries self transactions w)
                  (seq 0 (window_count self transactions))
    /\ (validate_audit_hash = false
        \/ (forall k, (k < window_count self transactions)%nat ->
                      honest_answer (chunk self transactions k)
                                    (answer self transactions w k)) ->
        stdout w' = (stdout w ++ map error_line (s_failed_batches summary))%list).
Proof.
  unfold process_all, py_range, time_time.
  destruct (batch_size self =? 0)%Z eqn:E0; [lia|].
  destruct (batch_size self <? 0)%Z eqn:E1; [lia|].
  destruct (loop_full w (window_count self transactions) 0 (mkAcc [] []) (tick w))
    as (acc' & w' & rss & E & R & W & F & O); auto.
  unfold window_count in E. unfold index_of in E at 1.
  unfold ret. cbv beta iota. rewrite E.
  do 2 eexists. exists rss. split; [reflexivity|]. simpl.
  rewrite R, F. simpl. repeat split; auto.
  intros Hoff. apply O.
  destruct Hoff as [Hoff|Hh]; [now left | right].
  intros k Hk. apply Hh. apply in_seq in Hk. lia.
Qed.

End FullLoop.

(* ================================================================== *)
(** ** Batch sizes that are not positive, and empty input *)

(** X1. [process_all] raises exactly when the batch size is 0: then it
    raises the [ValueError] of [range()] before any request is posted, any
    line printed or the callback invoked.  With any other batch size it
    returns a summary, whatever the server answers and whatever the
    callback does. *)
Theorem process_all_raises_only_on_zero_batch_size
    (self : BatchProcessor) (transactions : list Dict)
    (validate_audit_hash : bool) (w : World) :
  (batch_size self = 0%Z ->
   process_all self transactions validate_audit_hash w
   = (raise "ValueError" "range() arg 3 must not be zero", tick w))
  /\ (batch_size self <> 0%Z ->
      exists summary w',
        process_all self transactions validate_audit_hash w = (inl summary, w')).
Proof.
  split.
  - intros H0. unfold process_all, py_range, time_time. rewrite H0. reflexivity.
  - intros Hne.
    destruct (Z.lt_ge_cases (batch_size self) 0) as [Hneg|Hpos].
    + unfold process_all, py_range, time_time.
      destruct (batch_size self =? 0)%Z eqn:E0; [lia|].
      destruct (batch_size self <? 0)%Z eqn:E1; [|lia].
      do 2 eexists. reflexivity.
    + destruct (process_all_spec self transactions validate_audit_hash
                  ltac:(lia) w) as (summary & w' & E & _).
      eauto.
Qed.

Lemma process_all_raises_only_on_zero_batch_size_witness :
  batch_size (SampleRun.processor 0) = 0%Z
  /\ process_all (SampleRun.processor 0) SampleRun.five false
                 (SampleRun.world SampleRun.echo_server)
     = (raise "ValueError" "range() arg 3 must not be zero",
        tick (SampleRun.world SampleRun.echo_server)).
Proof.
  assert (H : batch_size (SampleRun.processor 0) = 0%Z) by reflexivity.
  split; [exact H|].
  exact (proj1 (process_all_raises_only_on_zero_batch_size
                  (SampleRun.processor 0) SampleRun.five false
                  (SampleRun.world SampleRun.echo_server)) H).
Defined.

(** X2. With a negative batch size [process_all] posts nothing and still
    returns a summary: every transaction is counted as failed, yet
    [failed_batches] and [results] are empty, nothing is printed and the
    callback is never invoked. *)
Theorem process_all_negative_batch_size
    (self : BatchProcessor) (transactions : list Dict)
    (validate_audit_hash : bool) (w : World) :
  (batch_size self < 0)%Z ->
  exists summary w',
    process_all self transactions validate_audit_hash w = (inl summary, w')
    /\ s_total_transactions summary = len transactions
    /\ s_successful summary = 0%Z
    /\ s_failed summary = len transactions
    /\ s_failed_batches summary = []
    /\ s_results summary = []
    /\ sent w' = sent w /\ stdout w' = stdout w /\ progress w' = progress w.
Proof.
  intros Hneg. unfold process_all, py_range, time_time.
  destruct (batch_size self =? 0)%Z eqn:E0; [lia|].
  destruct (batch_size self <? 0)%Z eqn:E1; [|lia].
  do 2 eexists. split; [reflexivity|]. simpl.
  repeat split; auto. unfold len. simpl. lia.
Qed.

Lemma process_all_negative_batch_size_witness :
  (batch_size (SampleRun.processor (-10)) < 0)%Z
  /\ exists summary w',
       process_all (SampleRun.processor (-10)) SampleRun.five true
                   (SampleRun.world SampleRun.echo_server) = (inl summary, w')
       /\ s_failed summary = 5%Z
       /\ s_failed_batches summary = []
       /\ sent w' = [].
Proof.
  assert (H : (batch_size (SampleRun.processor (-10)) < 0)%Z)
    by (vm_compute; reflexivity).
  split; [exact H|].
  destruct (process_all_negative_batch_size (SampleRun.processor (-10))
              SampleRun.five true (SampleRun.world SampleRun.echo_server) H)
    as (summary & w' & E & _ & _ & Hf & Hb & _ & Hs & _).
  exists summary, w'. repeat split; auto.
Defined.

(** X3. On an empty transaction list, with any batch size other than 0,
    [process_all] posts nothing, prints nothing, never invokes the callback
    and returns the all-zero summary. *)
Theorem process_all_empty_input
    (self : BatchProcessor) (validate_audit_hash : bool) (w : World) :
  batch_size self <> 0%Z ->
  exists summary w',
    process_all self [] validate_audit_hash w = (inl summary, w')
    /\ s_total_transactions summary = 0%Z
    /\ s_successful summary = 0%Z
    /\ s_failed summary = 0%Z
    /\ s_failed_batches summary = []
    /\ s_results summary = []
    /\ num_nonneg (s_throughput summary) = true
    /\ sent w' = sent w /\ stdout w' = stdout w /\ progress w' = progress w.
Proof.
  intros Hne. unfold process_all, py_range, time_time.
  destruct (batch_size self =? 0)%Z eqn:E0; [lia|].
  assert (Hidx : (if (batch_size self <? 0)%Z
                  then ret []
                  else ret (map (fun k : nat => (Z.of_nat k * batch_size self)%Z)
                              (seq 0 (Z.to_nat
                                 ((len (@nil Dict) + batch_size self - 1)
                                    / batch_size self)))))
                 = @inl (list Z) PyExc []).
  { destruct (batch_size self <? 0)%Z eqn:E1; [reflexivity|].
    change (len (@nil Dict)) with 0%Z.
    rewrite Z.div_small by lia. reflexivity. }
  rewrite Hidx.
  do 2 eexists. split; [reflexivity|]. simpl.
  repeat split; auto.
  destruct (throughput_of_spec 0 (f_sub (unix_time (clock w (S (ticks w))))
                                        (unix_time (clock w (ticks w)))))
    as [Hn _]; [unfold sys_maxsize; lia | exact Hn].
Qed.

Lemma process_all_empty_input_witness :
  batch_size (SampleRun.processor 1000) <> 0%Z
  /\ exists summary w',
       process_all (SampleRun.processor 1000) [] true
                   (SampleRun.world SampleRun.dead_server) = (inl summary, w')
       /\ s_failed summary = 0%Z
       /\ sent w' = [].
Proof.
  assert (H : batch_size (SampleRun.processor 1000) <> 0%Z)
    by (vm_compute; discriminate).
  split; [exact H|].
  destruct (process_all_empty_input (SampleRun.processor 1000) true
              (SampleRun.world SampleRun.dead_server) H)
    as (summary & w' & E & _ & _ & Hf & _ & _ & _ & Hs & _).
  exists summary, w'. repeat split; auto.
Defined.

(* ================================================================== *)
(** ** Accounting *)

Lemma window_results_length (self : BatchProcessor) (transactions : list Dict)
    (w : World) (k : nat) (rs : list TransactionResult) :
  window_results self transactions w k rs ->
  List.length rs = window_yield self transactions w k.
Proof.
  unfold window_results, window_yield.
  destruct (batch_accepted self transactions w k).
  - intros (req & resp & Hb). apply build_results_length in Hb.
    now rewrite Hb, length_combine.
  - now intros ->.
Qed.

Lemma concat_length_by_window {A B} (R : A -> list B -> Prop) (f : A -> nat)
    (l : list A) (rss : list (list B)) :
  (forall a rs, R a rs -> List.length rs = f a) ->
  Forall2 R l rss ->
  List.length (List.concat rss) = list_sum (map f l).
Proof.
  intros Hf. induction 1 as [|a rs l rss Hr _ IH]; simpl; auto.
  now rewrite length_app, IH, (Hf _ _ Hr).
Qed.

Lemma list_sum_le (f g : nat -> nat) (l : list nat) :
  (forall k, In k l -> (f k <= g k)%nat) ->
  (list_sum (map f l) <= list_sum (map g l))%nat.
Proof.
  induction l as [|a l IH]; intros H; simpl; auto.
  pose proof (H a (or_introl eq_refl)).
  assert (list_sum (map f l) <= list_sum (map g l))%nat
    by (apply IH; intros; apply H; now right).
  lia.
Qed.

Lemma window_yield_le (self : BatchProcessor) (transactions : list Dict)
    (w : World) (k : nat) :
  (window_yield self transactions w k
   <= List.length (chunk self transactions k))%nat.
Proof.
  unfold window_yield. destruct (batch_accepted self transactions w k); lia.
Qed.

Lemma windows_total_length (self : BatchProcessor) (transactions : list Dict) :
  (1 <= batch_size self)%Z ->
  list_sum (map (fun k => List.length (chunk self transactions k))
                (seq 0 (window_count self transactions)))
  = List.length transactions.
Proof.
  intros HB.
  rewrite <- (windows_concat self transactions HB) at 2.
  now rewrite length_concat, map_map.
Qed.

(** X4. The summary accounts for every transaction: [successful] is the
    number of results, which is the sum over the batches whose call
    returned of [min(len(batch), len(response))]; [successful + failed] is
    the input size, and [failed] is never negative. *)
Theorem summary_accounts_for_every_transaction
    (self : BatchProcessor) (transactions : list Dict)
    (validate_audit_hash : bool) (w : World) :
  (1 <= batch_size self)%Z ->
  exists summary w',
    process_all self transactions validate_audit_hash w = (inl summary, w')
    /\ s_total_transactions summary = len transactions
    /\ s_successful summary = len (s_results summary)
    /\ s_successful summary
       = Z.of_nat (list_sum (map (window_yield self transactions w)
                                 (seq 0 (window_count self transactions))))
    /\ (s_successful summary + s_failed summary = len transactions)%Z
    /\ (0 <= s_failed summary <= len transactions)%Z.
Proof.
  intros HB.
  destruct (process_all_spec self transactions validate_audit_hash HB w)
    as (summary & w' & E & _ & _ & _ & Ht & Hs & Hf & _).
  destruct (process_all_full self transactions validate_audit_hash HB w)
    as (summary' & w'' & rss & E' & R & W & _).
  rewrite E in E'. inversion E'; subst summary' w''. clear E'.
  assert (Hlen : List.length (s_results summary)
                 = list_sum (map (window_yield self transactions w)
                                 (seq 0 (window_count self transactions)))).
  { rewrite R. apply (concat_length_by_window
                        (window_results self transactions w)); auto.
    intros k rs. apply window_results_length. }
  assert (Hle : (List.length (s_results summary) <= List.length transactions)%nat).
  { rewrite Hlen, <- (windows_total_length self transactions HB).
    apply list_sum_le. intros k _. apply window_yield_le. }
  exists summary, w'. split; [exact E|]. split; [exact Ht|]. split; [exact Hs|].
  split; [rewrite Hs; unfold len; now rewrite Hlen|].
  rewrite Hs, Hf. unfold len. lia.
Qed.

Lemma summary_accounts_for_every_transaction_witness :
  (1 <= batch_size (SampleRun.processor 2))%Z
  /\ exists summary w',
       process_all (SampleRun.processor 2) SampleRun.five false
                   (SampleRun.world (SampleRun.flaky_server 1))
       = (inl summary, w')
       /\ s_successful summary = 3%Z
       /\ (s_successful summary + s_failed summary = 5)%Z.
Proof.
  assert (HB : (1 <= batch_size (SampleRun.processor 2))%Z)
    by (vm_compute; discriminate).
  split; [exact HB|].
  destruct (summary_accounts_for_every_transaction (SampleRun.processor 2)
              SampleRun.five false (SampleRun.world (SampleRun.flaky_server 1)) HB)
    as (summary & w' & E & _ & _ & Hy & Hsum & _).
  exists summary, w'. split; [exact E|]. split; [|exact Hsum].
  rewrite Hy. vm_compute. reflexivity.
Defined.

(* ================================================================== *)
(** ** The failed batches *)







(** X6. With the hash validation off, what [process_all] prints is one
    line [Error processing batch <id>: <error>] per entry of
    [failed_batches], in the same order, and nothing else. *)
Theorem printed_lines_are_the_failed_batches
    (self : BatchProcessor) (transactions : list Dict) (w : World) :
  (1 <= batch_size self)%Z ->
  exists summary w',
    process_all self transactions false w = (inl summary, w')
    /\ stdout w' = (stdout w ++ map error_line (s_failed_batches summary))%list.
Proof.
  intros HB.
  destruct (process_all_full self transactions false HB w)
    as (summary & w' & rss & E & _ & _ & _ & O).
  exists summary, w'. split; [exact E | apply O; now left].
Qed.

Lemma printed_lines_are_the_failed_batches_witness :
  (1 <= batch_size (SampleRun.processor 2))%Z
  /\ exists summary w',
       process_all (SampleRun.processor 2) SampleRun.five false
                   (SampleRun.world (SampleRun.flaky_server 1))
       = (inl summary, w')
       /\ stdout w' = ["Error processing batch 2: Connection refused"].
Proof.
  assert (HB : (1 <= batch_size (SampleRun.processor 2))%Z)
    by (vm_compute; discriminate).
  split; [exact HB|].
  destruct (printed_lines_are_the_failed_batches (SampleRun.processor 2)
              SampleRun.five (SampleRun.world (SampleRun.flaky_server 1)) HB)
    as (summary & w' & E & O).
  exists summary, w'. split; [exact E|].
  rewrite O. pose proof (f_equal fst E) as Hs. cbn [fst] in Hs.
  assert (Hf : s_failed_batches summary = [mkFailedBatch 2 "Connection refused"]).
  { apply (f_equal (fun x => match x with
                             | inl s => s_failed_batches s
                             | inr _ => []
                             end)) in Hs.
    rewrite <- Hs. vm_compute. reflexivity. }
  rewrite Hf. reflexivity.
Defined.

(* ================================================================== *)
(** ** A callback that raises *)

Lemma Forall2_nth_split {A B} (R : A -> B -> Prop) (l : list A) (l' : list B) :
  Forall2 R l l' ->
  forall (k : nat) (a : A),
    nth_error l k = Some a ->
    exists l1 b l2, l' = (l1 ++ b :: l2)%list /\ R a b.
Proof.
  induction 1 as [|x y l l' Hxy _ IH]; intros k a Hk.
  - destruct k; discriminate.
  - destruct k as [|k].
    + inversion Hk; subst. exists [], y, l'. auto.
    + destruct (IH k a Hk) as (l1 & b & l2 & -> & Hr).
      exists (y :: l1), b, l2. auto.
Qed.

(** X7. When the progress callback raises on a batch that [process_batch]
    has processed, the batch is recorded in [failed_batches] with the
    callback's message although its results are already part of [results]
    (and are counted as successful). *)
Theorem raising_callback_fails_a_processed_batch
    (self : BatchProcessor) (transactions : list Dict)
    (validate_audit_hash : bool) (w : World) (k : nat)
    (callback : Callback) (e : PyExc) :
  (1 <= batch_size self)%Z ->
  (k < window_count self transactions)%nat ->
  batch_accepted self transactions w k = true ->
  progress_callback self = Some callback ->
  callback (fst (progress_call self transactions k))
           (snd (progress_call self transactions k)) = Some e ->
  exists summary w' before rs after req resp,
    process_all self transactions validate_audit_hash w = (inl summary, w')
    /\ In (mkFailedBatch (id_of k) (exc_str e)) (s_failed_batches summary)
    /\ s_results summary = (before ++ rs ++ after)%list
    /\ build_results (id_of k) req resp 0
         (combine (chunk self transactions k)
                  (items_of (answer self transactions w k))) = inl rs
    /\ List.length rs = window_yield self transactions w k.
Proof.
  intros HB Hk Hacc Hcb He.
  destruct (process_all_full self transactions validate_audit_hash HB w)
    as (summary & w' & rss & E & R & W & F & _).
  assert (Hnth : nth_error (seq 0 (window_count self transactions)) k = Some k).
  { rewrite nth_error_nth' with (d := O) by (now rewrite length_seq).
    now rewrite seq_nth. }
  destruct (Forall2_nth_split _ _ _ W k k Hnth) as (l1 & rs & l2 & Hrss & Hrs).
  pose proof (window_results_length _ _ _ _ _ Hrs) as Hlen.
  unfold window_results in Hrs. rewrite Hacc in Hrs.
  destruct Hrs as (req & resp & Hb).
  exists summary, w', (List.concat l1), rs, (List.concat l2), req, resp.
  split; [exact E|]. split; [|split; [|split]]; auto.
  - rewrite F. apply in_flat_map. exists k. split; [apply in_seq; lia|].
    unfold failure_entries, window_failure.
    unfold batch_accepted in Hacc. fold (answer self transactions w k) in Hacc.
    destruct (answer self transactions w k) as [r|e0]; [|discriminate].
    rewrite (response_error_accepted _ (id_of k) r) in Hacc.
    destruct (response_error (chunk self transactions k) (id_of k) r);
      [discriminate|].
    rewrite Hcb, He. now left.
  - rewrite R, Hrss, concat_app. reflexivity.
Qed.

Lemma raising_callback_fails_a_processed_batch_witness :
  (1 <= batch_size SampleMore.processor)%Z
  /\ exists summary w',
       process_all SampleMore.processor SampleRun.five false
                   (SampleRun.world SampleRun.echo_server) = (inl summary, w')
       /\ In (mkFailedBatch 1 "progress bar broke") (s_failed_batches summary)
       /\ s_successful summary = 5%Z.
Proof.
  assert (HB : (1 <= batch_size SampleMore.processor)%Z)
    by (vm_compute; discriminate).
  split; [exact HB|].
  destruct (raising_callback_fails_a_processed_batch SampleMore.processor
              SampleRun.five false (SampleRun.world SampleRun.echo_server) 0%nat
              SampleMore.brittle (mkExc "RuntimeError" "progress bar broke")
              HB ltac:(vm_compute; lia) eq_refl eq_refl eq_refl)
    as (summary & w' & before & rs & after & req & resp & E & Hin & _).
  exists summary, w'. split; [exact E|]. split; [exact Hin|].
  pose proof (f_equal fst E) as Hs. cbn [fst] in Hs.
  apply (f_equal (fun x => match x with
                           | inl s => s_successful s
                           | inr _ => 0%Z
                           end)) in Hs.
  rewrite <- Hs. vm_compute. reflexivity.
Defined.

(* ================================================================== *)
(** ** Results trace back to transactions by position *)

(** X8. Every result of a batch traces back to the transaction and the
    response item at its own position: its id is the transaction's
    ["transaction_id"], or [txn_<batch>_<position>] when the transaction has
    none; its hash, flag, reason and confidence are the item's; and all
    results of the batch carry the same two timestamps, read just before
    and just after the request. *)
Theorem process_batch_results_trace_positions
    (transactions : list Dict) (id : Z) (w : World) (br : BatchResult) :
  fst (process_batch transactions id w) = inl br ->
  exists r,
    server w (List.length (sent w)) transactions = Responded r
    /\ status_code r = 200%Z
    /\ List.length (results br)
       = Nat.min (List.length transactions)
                 (List.length (items_of (Responded r)))
    /\ forall (j : nat) (res : TransactionResult),
         nth_error (results br) j = Some res ->
         exists txn item,
           nth_error transactions j = Some txn
           /\ nth_error (items_of (Responded r)) j = Some item
           /\ transaction_id res
              = dict_get_default "transaction_id"
                  (PStr ("txn_" ++ str_of_Z id ++ "_" ++ str_of_Z (Z.of_nat j)))
                  txn
           /\ py_getitem item "audit_hash" = inl (audit_hash res)
           /\ py_getitem item "exception_flag" = inl (exception_flag res)
           /\ py_getitem item "reason_code" = inl (reason_code res)
           /\ py_getitem item "confidence" = inl (confidence res)
           /\ request_timestamp res = utc_iso (clock w (1 + ticks w)%nat)
           /\ response_timestamp res = utc_iso (clock w (2 + ticks w)%nat).
Proof.
  rewrite process_batch_eq. cbv zeta.
  destruct (server w (List.length (sent w)) transactions) as [r|e];
    [|discriminate].
  cbn [fst]. intros Hh. exists r. split; [reflexivity|].
  pose proof (f_equal returns Hh) as Hret.
  rewrite handle_response_returns in Hret.
  unfold accepted in Hret. simpl returns in Hret.
  apply andb_prop in Hret. destruct Hret as [H200 _].
  apply Z.eqb_eq in H200. split; [exact H200|].
  pose proof (handle_response_result _ _ _ _ _ _ _ Hh)
    as (v & items & Hb & Hi & Hr & _).
  assert (Hitems : items_of (Responded r) = items)
    by (unfold items_of; now rewrite Hb, Hi).
  rewrite Hitems.
  pose proof (build_results_length _ _ _ _ _ _ Hr) as Hlen.
  rewrite length_combine in Hlen. split; [exact Hlen|].
  intros j res Hj.
  assert (Hjlt : (j < List.length (combine transactions items))%nat).
  { rewrite length_combine, <- Hlen. apply nth_error_Some. congruence. }
  destruct (nth_error (combine transactions items) j) as [[txn item]|] eqn:Ep.
  2:{ apply nth_error_None in Ep. lia. }
  destruct (build_results_nth _ _ _ _ _ _ Hr j txn item Ep) as (res' & Hn & Hm).
  rewrite Hj in Hn. inversion Hn; subst res'.
  apply make_result_fields in Hm.
  destruct Hm as (Hid & Hah & Hef & Hrc & Hcf & _ & Ha & Hbb).
  exists txn, item.
  assert (Hsplit : nth_error transactions j = Some txn
                   /\ nth_error items j = Some item).
  { clear - Ep. revert items j Ep.
    induction transactions as [|t ts IH]; intros [|it its] [|j] Ep;
      simpl in *; try discriminate.
    - inversion Ep. auto.
    - now apply IH. }
  destruct Hsplit as [Ht Hit].
  repeat split; auto.
Qed.

Lemma process_batch_results_trace_positions_witness :
  exists br r,
    fst (process_batch SampleRun.five 4 (SampleRun.world SampleRun.echo_server))
    = inl br
    /\ server (SampleRun.world SampleRun.echo_server) 0 SampleRun.five
       = Responded r
    /\ status_code r = 200%Z
    /\ List.length (results br)
       = Nat.min (List.length SampleRun.five)
                 (List.length (items_of (Responded r))).
Proof.
  eexists.
  match goal with
  | |- exists r, fst _ = inl ?b /\ _ =>
      assert (Hb : fst (process_batch SampleRun.five 4
                          (SampleRun.world SampleRun.echo_server)) = inl b)
        by (vm_compute; reflexivity);
      destruct (process_batch_results_trace_positions SampleRun.five 4%Z
                  (SampleRun.world SampleRun.echo_server) b Hb)
        as (r & Hs & H200 & Hlen & _)
  end.
  exists r. repeat split; auto.
Defined.

(* ================================================================== *)
(** ** The ids of the results follow the input order *)

Lemma dict_get_default_present (k : string) (default : PyVal) (d : Dict) :
  dict_contains k d = true -> dict_get_default k default d = dict_get k d.
Proof.
  rewrite dict_contains_lookup. unfold dict_get_default, dict_get.
  destruct (dict_lookup k d); [reflexivity | discriminate].
Qed.

Lemma build_results_ids (id : Z) (a b : string) (pairs : list (Dict * PyVal)) :
  forall (i : Z) (rs : list TransactionResult),
    build_results id a b i pairs = inl rs ->
    forallb has_id (map fst pairs) = true ->
    map transaction_id rs = map declared_id (map fst pairs).
Proof.
  induction pairs as [|[txn item] rest IH]; intros i rs Hb Hid;
    cbn [build_results] in Hb.
  - inversion Hb. reflexivity.
  - destruct (make_result id a b i txn item) as [x|e] eqn:Em; [|discriminate].
    destruct (build_results id a b (i + 1) rest) as [xs|e] eqn:Er; [|discriminate].
    inversion Hb; subst rs. simpl in Hid. apply andb_prop in Hid.
    destruct Hid as [Ht Hrest]. simpl. f_equal.
    + apply make_result_fields in Em. destruct Em as [Hx _].
      rewrite Hx. now apply dict_get_default_present.
    + eapply IH; eauto.
Qed.

Lemma map_fst_combine {A B} (l : list A) (l' : list B) :
  map fst (combine l l') = firstn (List.length l') l.
Proof.
  revert l'. induction l as [|x l IH]; intros [|y l']; simpl; auto.
  now rewrite IH.
Qed.

Lemma firstn_min_length {A} (l : list A) (n : nat) :
  firstn (Nat.min (List.length l) n) l = firstn n l.
Proof.
  destruct (Nat.le_ge_cases n (List.length l)) as [H|H].
  - now rewrite Nat.min_r.
  - rewrite Nat.min_l by exact H.
    now rewrite firstn_all, firstn_all2.
Qed.

Lemma forallb_firstn {A} (p : A -> bool) (n : nat) (l : list A) :
  forallb p l = true -> forallb p (firstn n l) = true.
Proof.
  rewrite !forallb_forall. intros H x Hx. apply H.
  eapply (In_nth_error) in Hx. destruct Hx as [j Hj].
  pose proof (firstn_skipn n l) as Hl. rewrite <- Hl.
  apply in_or_app. left. eapply nth_error_In; eauto.
Qed.

Lemma forallb_skipn {A} (p : A -> bool) (n : nat) (l : list A) :
  forallb p l = true -> forallb p (skipn n l) = true.
Proof.
  rewrite !forallb_forall. intros H x Hx. apply H.
  rewrite <- (firstn_skipn n l). apply in_or_app. now right.
Qed.

Lemma chunk_has_ids (self : BatchProcessor) (transactions : list Dict) (k : nat) :
  forallb has_id transactions = true ->
  forallb has_id (chunk self transactions k) = true.
Proof.
  intros H. unfold chunk, py_slice. now apply forallb_firstn, forallb_skipn.
Qed.

Lemma window_results_ids (self : BatchProcessor) (transactions : list Dict)
    (w : World) (k : nat) (rs : list TransactionResult) :
  forallb has_id transactions = true ->
  window_results self transactions w k rs ->
  map transaction_id rs
  = map declared_id (firstn (window_yield self transactions w k)
                            (chunk self transactions k)).
Proof.
  intros Hid. unfold window_results, window_yield.
  destruct (batch_accepted self transactions w k).
  - intros (req & resp & Hb).
    rewrite firstn_min_length, <- map_fst_combine.
    eapply build_results_ids; eauto.
    rewrite map_fst_combine. apply forallb_firstn.
    now apply chunk_has_ids.
  - now intros ->.
Qed.

Lemma map_concat_by_window {A B C} (R : A -> list B -> Prop) (g : B -> C)
    (h : A -> list C) (l : list A) (rss : list (list B)) :
  (forall a rs, R a rs -> map g rs = h a) ->
  Forall2 R l rss ->
  map g (List.concat rss) = flat_map h l.
Proof.
  intros Hh. induction 1 as [|a rs l rss Hr _ IH]; simpl; auto.
  now rewrite map_app, IH, (Hh _ _ Hr).
Qed.

(** X9. When every transaction carries a ["transaction_id"], the ids of
    [results] are, batch after batch, the ids of the transactions each
    processed batch was answered for: a failed batch contributes none, a
    processed one those of its first [min(len(batch), len(response))]
    transactions.  If every batch is processed and answered in full, the
    ids of [results] are the ids of the input, in input order. *)
Theorem result_ids_follow_input_order
    (self : BatchProcessor) (transactions : list Dict)
    (validate_audit_hash : bool) (w : World) :
  (1 <= batch_size self)%Z ->
  forallb has_id transactions = true ->
  let count := window_count self transactions in
  exists summary w',
    process_all self transactions validate_audit_hash w = (inl summary, w')
    /\ map transaction_id (s_results summary)
       = flat_map (fun k => map declared_id
                              (firstn (window_yield self transactions w k)
                                      (chunk self transactions k)))
                  (seq 0 count)
    /\ ((forall k, (k < count)%nat ->
                   window_yield self transactions w k
                   = List.length (chunk self transactions k)) ->
        map transaction_id (s_results summary) = map declared_id transactions).
Proof.
  intros HB Hid count.
  destruct (process_all_full self transactions validate_audit_hash HB w)
    as (summary & w' & rss & E & R & W & _).
  exists summary, w'. split; [exact E|].
  assert (Hmap : map transaction_id (s_results summary)
                 = flat_map (fun k => map declared_id
                                        (firstn (window_yield self transactions w k)
                                                (chunk self transactions k)))
                            (seq 0 count)).
  { rewrite R.
    apply (map_concat_by_window (window_results self transactions w)); auto.
    intros k rs. now apply window_results_ids. }
  split; [exact Hmap|].
  intros Hfull. rewrite Hmap.
  transitivity (map declared_id
                  (List.concat (map (chunk self transactions) (seq 0 count))));
    [|unfold count; now rewrite (windows_concat self transactions HB)].
  rewrite concat_map, map_map, flat_map_concat_map. f_equal.
  apply map_ext_in. intros k Hk. apply in_seq in Hk.
  rewrite Hfull by (unfold count; lia). now rewrite firstn_all.
Qed.

Lemma result_ids_follow_input_order_witness :
  (1 <= batch_size (SampleRun.processor 2))%Z
  /\ forallb has_id SampleRun.five = true
  /\ exists summary w',
       process_all (SampleRun.processor 2) SampleRun.five false
                   (SampleRun.world (SampleRun.flaky_server 1))
       = (inl summary, w')
       /\ map transaction_id (s_results summary)
          = [PStr "TXN_1"; PStr "TXN_2"; PStr "TXN_5"].
Proof.
  assert (HB : (1 <= batch_size (SampleRun.processor 2))%Z)
    by (vm_compute; discriminate).
  assert (Hid : forallb has_id SampleRun.five = true) by reflexivity.
  split; [exact HB|]. split; [exact Hid|].
  destruct (result_ids_follow_input_order (SampleRun.processor 2)
              SampleRun.five false (SampleRun.world (SampleRun.flaky_server 1))
              HB Hid)
    as (summary & w' & E & Hmap & _).
  exists summary, w'. split; [exact E|].
  rewrite Hmap. vm_compute. reflexivity.
Defined.

(* ================================================================== *)
(** ** The hash validation of [process_all] is advisory *)






Lemma tick_related (w wb : World) :
  same_but_stdout w wb -> same_but_stdout (tick w) (tick wb).
Proof.
  unfold same_but_stdout. simpl. intros (A1 & A2 & A3 & A4 & A5).
  repeat split; congruence.
Qed.





(* ================================================================== *)
(** ** Honest answers raise no warning *)

(** X11. When every item the service returns declares the hash of its
    transaction overlaid with the item's own [exception_flag],
    [reason_code] and [confidence], a run of [process_all] with the hash
    validation on prints no warning: the only lines printed are the error
    lines of the failed batches. *)
Theorem honest_answers_print_no_warning
    (self : BatchProcessor) (transactions : list Dict) (w : World) :
  (1 <= batch_size self)%Z ->
  (forall k, (k < window_count self transactions)%nat ->
             honest_answer (chunk self transactions k)
                           (answer self transactions w k)) ->
  exists summary w',
    process_all self transactions true w = (inl summary, w')
    /\ stdout w' = (stdout w ++ map error_line (s_failed_batches summary))%list.
Proof.
  intros HB Hh.
  destruct (process_all_full self transactions true HB w)
    as (summary & w' & rss & E & _ & _ & _ & O).
  exists summary, w'. split; [exact E | apply O; now right].
Qed.

Lemma sign_is_honest (txn : Dict) : honest txn (SampleMore.sign txn).
Proof.
  exists (Sample.signed_result txn). split; reflexivity.
Qed.

Lemma honest_server_answers_honestly (self : BatchProcessor)
    (transactions : list Dict) (k : nat) :
  honest_answer (chunk self transactions k)
    (answer self transactions (SampleRun.world SampleMore.honest_server) k).
Proof.
  intros j txn item Ht Hi. unfold answer in Hi. simpl in Hi.
  rewrite nth_error_map, Ht in Hi. inversion Hi. apply sign_is_honest.
Qed.

Lemma honest_answers_print_no_warning_witness :
  (1 <= batch_size (SampleRun.processor 2))%Z
  /\ exists summary w',
       process_all (SampleRun.processor 2) SampleRun.five true
                   (SampleRun.world SampleMore.honest_server)
       = (inl summary, w')
       /\ stdout w'
          = (stdout (SampleRun.world SampleMore.honest_server)
               ++ map error_line (s_failed_batches summary))%list.
Proof.
  assert (HB : (1 <= batch_size (SampleRun.processor 2))%Z)
    by (vm_compute; discriminate).
  split; [exact HB|].
  exact (honest_answers_print_no_warning (SampleRun.processor 2) SampleRun.five
           (SampleRun.world SampleMore.honest_server) HB
           (fun k _ => honest_server_answers_honestly _ _ k)).
Defined.

(* ================================================================== *)
(** ** What the validator hashes *)

Lemma dict_lookup_set_same (k : string) (v : PyVal) (d : Dict) :
  dict_lookup k (dict_set k v d) = Some v.
Proof.
  induction d as [|[k' v'] r IH]; simpl.
  - now rewrite String.eqb_refl.
  - destruct (String.eqb k k') eqn:E; simpl; rewrite E; auto.
Qed.

Lemma dict_lookup_set_other (k k' : string) (v : PyVal) (d : Dict) :
  k' <> k -> dict_lookup k' (dict_set k v d) = dict_lookup k' d.
Proof.
  intros Hne. induction d as [|[k0 v0] r IH]; simpl.
  - apply String.eqb_neq in Hne. now rewrite Hne.
  - destruct (String.eqb k k0) eqn:E; simpl.
    + apply String.eqb_eq in E. subst k0.
      apply String.eqb_neq in Hne. now rewrite Hne.
    + destruct (String.eqb k' k0); auto.
Qed.

Lemma keys_dict_set (k : string) (v : PyVal) (d : Dict) :
  keys (dict_set k v d)
  = if dict_contains k d then keys d else (keys d ++ [k])%list.
Proof.
  induction d as [|[k' v'] r IH]; simpl; auto.
  destruct (String.eqb k k') eqn:E; simpl; auto.
  unfold keys in *. rewrite IH. destruct (dict_contains k r); reflexivity.
Qed.

Lemma dict_contains_in (k : string) (d : Dict) :
  dict_contains k d = true <-> In k (keys d).
Proof.
  induction d as [|[k' v'] r IH]; simpl.
  - split; [discriminate | tauto].
  - rewrite orb_true_iff, IH, String.eqb_eq. intuition congruence.
Qed.

Lemma dict_set_wf (k : string) (v : PyVal) (d : Dict) :
  wf_dict d -> wf_dict (dict_set k v d).
Proof.
  unfold wf_dict. rewrite keys_dict_set.
  destruct (dict_contains k d) eqn:E; auto.
  intros Hnd. apply NoDup_app; auto.
  - repeat constructor. simpl. tauto.
  - intros x Hx [<-|[]]. apply dict_contains_in in Hx. congruence.
Qed.

(** X12. The mapping the validator hashes is the transaction overlaid
    with the verdict of the result: under ["exception_flag"],
    ["reason_code"] and ["confidence"] it holds what the result holds
    ([None] when the result lacks the key), whatever the transaction had
    there; under every other key it holds what the transaction holds.  The
    transaction's keys keep their order, new keys come after them, and no
    key is repeated. *)
Theorem expected_data_overlays_the_verdict (result original : Dict) :
  (forall k : string,
      dict_lookup k (expected_data result original)
      = if String.eqb k "exception_flag" || String.eqb k "reason_code"
           || String.eqb k "confidence"
        then Some (dict_get k result)
        else dict_lookup k original)
  /\ (exists added, keys (expected_data result original)
                    = (keys original ++ added)%list)
  /\ (wf_dict original -> wf_dict (expected_data result original)).
Proof.
  unfold expected_data. split; [|split].
  - intros k.
    destruct (String.eqb k "confidence") eqn:E3.
    { apply String.eqb_eq in E3. subst k. rewrite orb_true_r.
      now rewrite dict_lookup_set_same. }
    apply String.eqb_neq in E3. rewrite dict_lookup_set_other by exact E3.
    destruct (String.eqb k "reason_code") eqn:E2.
    { apply String.eqb_eq in E2. subst k. rewrite orb_true_r. simpl.
      now rewrite dict_lookup_set_same. }
    apply String.eqb_neq in E2. rewrite dict_lookup_set_other by exact E2.
    destruct (String.eqb k "exception_flag") eqn:E1.
    { apply String.eqb_eq in E1. subst k. simpl.
      now rewrite dict_lookup_set_same. }
    apply String.eqb_neq in E1. rewrite dict_lookup_set_other by exact E1.
    reflexivity.
  - rewrite !keys_dict_set.
    repeat match goal with
           | |- context [if ?b then _ else _] => destruct b
           end; rewrite <- ?app_assoc; eexists;
      try reflexivity; symmetry; apply app_nil_r.
  - intros Hwf. now repeat apply dict_set_wf.
Qed.

Lemma expected_data_overlays_the_verdict_witness :
  wf_dict (Sample.txn 1)
  /\ wf_dict (expected_data Sample.verdict (Sample.txn 1))
  /\ dict_lookup "confidence" (expected_data Sample.verdict (Sample.txn 1))
     = Some (PFloat (FFinite "0.82")).
Proof.
  assert (N : wf_dict (Sample.txn 1)).
  { unfold wf_dict. simpl. repeat constructor; simpl; intuition discriminate. }
  destruct (expected_data_overlays_the_verdict Sample.verdict (Sample.txn 1))
    as (Hl & _ & Hwf).
  split; [exact N|]. split; [exact (Hwf N)|].
  rewrite Hl. reflexivity.
Defined.

(** X13. The verdict of [validate_result] depends on the result only
    through four fields: its ["audit_hash"], ["exception_flag"],
    ["reason_code"] and ["confidence"].  Two results that agree on them get
    the same verdict against any transaction, whatever else they hold
    (the explainability features, ids, timestamps). *)
Theorem validate_result_reads_four_fields (r1 r2 original : Dict) :
  same_verdict_fields r1 r2 ->
  validate_result r1 original = validate_result r2 original.
Proof.
  intros (Ha & Hf & Hr & Hc). rewrite !validate_result_spec.
  unfold expected_data. now rewrite Ha, Hf, Hr, Hc.
Qed.

Lemma validate_result_reads_four_fields_witness :
  same_verdict_fields
    (Sample.signed_result (Sample.txn 1))
    (("explainability_features", PDict [("top", PStr "amount")])
       :: Sample.signed_result (Sample.txn 1))
  /\ validate_result
       (("explainability_features", PDict [("top", PStr "amount")])
          :: Sample.signed_result (Sample.txn 1)) (Sample.txn 1)
     = validate_result (Sample.signed_result (Sample.txn 1)) (Sample.txn 1).
Proof.
  assert (H : same_verdict_fields
                (Sample.signed_result (Sample.txn 1))
                (("explainability_features", PDict [("top", PStr "amount")])
                   :: Sample.signed_result (Sample.txn 1)))
    by (repeat split; reflexivity).
  split; [exact H|]. symmetry.
  exact (validate_result_reads_four_fields _ _ (Sample.txn 1) H).
Defined.

(* ================================================================== *)
(** ** [KoshaClient.reconcile_batch] *)

(** X14. [KoshaClient] keeps the batch size it was given, but
    [reconcile_batch] works through a [BatchProcessor], which caps it: for
    a client batch size of at least 1, [reconcile_batch] never raises,
    whatever the server and the callback do, and it posts the
    transactions in order in requests of at most 5000 (and at most the
    client's batch size) transactions each. *)
Theorem reconcile_batch_caps_requests
    (url : string) (size retries seconds : Z) (transactions : list Dict)
    (validate_audit_hash : bool) (cb : option Callback) (w : World) :
  (1 <= size)%Z ->
  let client := KoshaClient_init url size retries seconds in
  kc_batch_size client = size
  /\ exists summary w' submitted,
       reconcile_batch client transactions validate_audit_hash cb w
       = (inl summary, w')
       /\ sent w' = (sent w ++ submitted)%list
       /\ Forall (fun c => (len c <= 5000)%Z /\ (len c <= size)%Z) submitted
       /\ List.concat submitted = transactions
       /\ s_total_transactions summary = len transactions.
Proof.
  intros Hsize client. split; [reflexivity|].
  unfold reconcile_batch.
  set (self := BatchProcessor_init _ _ _ _ cb).
  assert (HB : (1 <= batch_size self)%Z) by (simpl; lia).
  destruct (process_all_spec self transactions validate_audit_hash HB w)
    as (summary & w' & E & T & _ & _ & Ht & _).
  exists summary, w',
    (map (chunk self transactions) (seq 0 (window_count self transactions))).
  split; [exact E|]. split; [exact T|]. split; [|split].
  - apply Forall_forall. intros c Hc. apply in_map_iff in Hc.
    destruct Hc as (k & <- & _).
    rewrite (chunk_length self transactions HB).
    change (batch_size self) with (Z.min size 5000). lia.
  - apply (windows_concat self transactions HB).
  - exact Ht.
Qed.

Lemma reconcile_batch_caps_requests_witness :
  (1 <= 20000)%Z
  /\ exists summary w' submitted,
       reconcile_batch (KoshaClient_init "http://127.0.0.1:8000" 20000 3 60)
                       SampleRun.five false None
                       (SampleRun.world SampleRun.echo_server)
       = (inl summary, w')
       /\ sent w' = submitted
       /\ Forall (fun c => (len c <= 5000)%Z /\ (len c <= 20000)%Z) submitted.
Proof.
  assert (H : (1 <= 20000)%Z) by lia.
  split; [exact H|].
  destruct (reconcile_batch_caps_requests "http://127.0.0.1:8000" 20000 3 60
              SampleRun.five false None (SampleRun.world SampleRun.echo_server) H)
    as (_ & summary & w' & submitted & E & T & F & _).
  exists summary, w', submitted. auto.
Defined.

(* ================================================================== *)
(** ** The address of the batch endpoint *)

Lemma rstrip_slash_spec (s : string) :
  exists n, s = rstrip_slash s ++ slashes n
            /\ ends_with_slash (rstrip_slash s) = false.
Proof.
  induction s as [|c r (n & Hr & He)]; simpl.
  - exists O. auto.
  - destruct (rstrip_slash r) as [|c' r'] eqn:Er.
    + destruct (Ascii.eqb c "/") eqn:Ec.
      * apply Ascii.eqb_eq in Ec. subst c. exists (S n). simpl.
        split; [now rewrite Hr | reflexivity].
      * exists n. simpl. rewrite Ec. split; [now rewrite Hr | reflexivity].
    + exists n. split; [simpl; now rewrite Hr at 1 | exact He].
Qed.

Lemma rstrip_slash_fixed (s : string) :
  ends_with_slash s = false -> rstrip_slash s = s.
Proof.
  induction s as [|c r IH]; simpl; auto.
  destruct r as [|c' r'].
  - simpl. now intros ->.
  - intros H. rewrite (IH H). reflexivity.
Qed.

(** X15. Whatever trailing slashes the configured URL has, the processor
    keeps the URL without them, so the address it posts to joins base and
    path with exactly one slash; stripping is idempotent, so the processor
    that [reconcile_batch] builds from a client's URL posts to the same
    address as one built from the original URL. *)
Theorem batch_endpoint_has_no_double_slash
    (url : string) (size retries seconds : Z) (cb : option Callback) :
  let self := BatchProcessor_init url size retries seconds cb in
  let client := KoshaClient_init url size retries seconds in
  (exists n, url = api_url self ++ slashes n)
  /\ ends_with_slash (api_url self) = false
  /\ batch_endpoint self = api_url self ++ "/paid-api/v1/reconcile/batch"
  /\ batch_endpoint
       (BatchProcessor_init (kc_api_url client) (kc_batch_size client)
          (kc_max_retries client) (kc_timeout client) cb)
     = batch_endpoint self.
Proof.
  intros self client. simpl.
  destruct (rstrip_slash_spec url) as (n & Hn & He).
  split; [eauto|]. split; [exact He|]. split; [reflexivity|].
  unfold batch_endpoint. simpl. now rewrite (rstrip_slash_fixed _ He).
Qed.

(* ================================================================== *)
(** ** The shape of an audit hash *)















(* ================================================================== *)
(** ** A 200 response of the wrong shape *)

(** X17. A 200 response whose body is not a JSON array: for a JSON object
    [process_batch] walks its keys, so a non-empty object answering a
    non-empty batch raises a [TypeError] about string indices, while an
    empty object is taken for an empty result list and the call returns
    with no result and no error; [null] raises a [TypeError] about
    iteration. *)
Theorem process_batch_on_misshaped_body
    (transactions : list Dict) (id : Z) (w : World) :
  (forall (t : Dict) (ts : list Dict) (kv : string * PyVal) (d : Dict),
      transactions = t :: ts ->
      server w (List.length (sent w)) transactions
      = Responded (mkResponse 200 (BodyJson (PDict (kv :: d)))) ->
      fst (process_batch transactions id w)
      = raise "TypeError" "string indices must be integers, not 'str'")
  /\ (server w (List.length (sent w)) transactions
      = Responded (mkResponse 200 (BodyJson (PDict []))) ->
      exists br,
        fst (process_batch transactions id w) = inl br
        /\ results br = [] /\ successful br = 0%Z /\ failed br = 0%Z
        /\ total_transactions br = len transactions)
  /\ (server w (List.length (sent w)) transactions
      = Responded (mkResponse 200 (BodyJson PNone)) ->
      fst (process_batch transactions id w)
      = raise "TypeError" "'NoneType' object is not iterable").
Proof.
  rewrite process_batch_eq. cbv zeta. split; [|split].
  - intros t ts [k v] d -> Hs. rewrite Hs. reflexivity.
  - intros Hs. rewrite Hs. cbn [fst].
    unfold handle_response, response_json, py_iter. simpl.
    destruct transactions; simpl; eexists; repeat split; reflexivity.
  - intros Hs. rewrite Hs. reflexivity.
Qed.

Lemma process_batch_on_misshaped_body_witness :
  server (SampleRun.world SampleMore.wrapping_server) 0 SampleRun.five
  = Responded (mkResponse 200
                 (BodyJson (PDict [("results", PList [])])))
  /\ fst (process_batch SampleRun.five 1
            (SampleRun.world SampleMore.wrapping_server))
     = raise "TypeError" "string indices must be integers, not 'str'".
Proof.
  split; [reflexivity|].
  exact (proj1 (process_batch_on_misshaped_body SampleRun.five 1
                  (SampleRun.world SampleMore.wrapping_server))
           (Sample.txn 1) (map Sample.txn [2; 3; 4; 5]%Z)
           ("results", PList []) [] eq_refl eq_refl).
Defined.

(* ================================================================== *)
(** ** Failed transactions are those of the failed batches *)




